(** * A shallow embedding of go-fuse's request pipeline (fuse/request.go)

    The request object, [setInput], [clear], [parse], [serializeHeader] and
    [flatDataSize] are translated from fuse/request.go.  A Go panic
    (index or slice bounds out of range) is the [None] result of a
    function returning [option].  Byte slices keep their aliasing: a slice
    names the array it points into (the request's inline arrays, or a heap
    array owned by the caller), its offset, its length and its capacity. *)

From Stdlib Require Import ZArith List Bool Lia.
From Stdlib Require Strings.String Strings.Ascii.
Import ListNotations.
Open Scope Z_scope.

Notation "'let*' x := m 'in' k" :=
  (match m with Some x => k | None => None end)
  (at level 200, x name, m at level 100, k at level 200).

(** ** Constants of the FUSE protocol *)

(** Status codes ([Status] is an int32). *)
Definition OK : Z := 0.
Definition EIO : Z := 5.
Definition ENOSYS : Z := 38.

(** Opcodes used below (kernel protocol numbers). *)
Definition _OP_LOOKUP : Z := 1.
Definition _OP_GETATTR : Z := 3.
Definition _OP_RENAME : Z := 12.
Definition _OP_SETXATTR : Z := 21.
Definition _OP_GETXATTR : Z := 22.
Definition _OP_LISTXATTR : Z := 23.
Definition _OP_INIT : Z := 26.

(** [unsafe.Sizeof(InHeader{})]: length u32, opcode u32, unique u64,
    nodeId u64, caller (uid, gid, pid) and padding. *)
Definition sizeof_InHeader : Z := 40.
(** [sizeOfOutHeader = unsafe.Sizeof(OutHeader{})]: length u32,
    status i32, unique u64. *)
Definition sizeOfOutHeader : Z := 16.
(** [unsafe.Sizeof(RenameIn{})]: the InHeader, Newdir u64, Flags u32 and
    Padding u32 (the record that carries the rename-swap flags). *)
Definition sizeof_RenameIn : Z := 56.
(** [outputHeaderSize], the length of the inline array [outBuf]. *)
Definition outputHeaderSize : Z := 160.
(** [len(r.smallInputBuf)]. *)
Definition smallInputSize : Z := 128.

(** ** Go data *)

(** The array a slice points into. *)
Inductive array : Type :=
| ANil                          (* the nil slice has no array *)
| ASmallIn                      (* the request's [smallInputBuf] *)
| AOutBuf                       (* the request's [outBuf] *)
| AHeap (id : Z) (contents : list Z). (* an array outside the request *)

(** A Go byte slice: array, offset in it, [len] and [cap]. *)
Record slice : Type := mkSlice {
  s_arr : array; s_off : Z; s_len : Z; s_cap : Z }.

Definition nil_slice : slice := mkSlice ANil 0 0 0.

(** [readResultFd]: a file descriptor range for splicing; [Size()]
    returns [Sz]. *)
Record readResultFd : Type := mkReadResultFd {
  Fd : Z; Off : Z; Sz : Z }.

(** [struct request].  [cancel] and [readResult] are references, modelled
    as optional handles ([None] is nil); [startTime] is a count of
    nanoseconds from the zero [time.Time]; strings are byte lists. *)
Record request : Type := {
  inflightIndex : Z;
  cancel : option nat;
  interrupted : bool;
  inputBuf : slice;
  outputBuf : slice;
  arg : slice;
  filenames : option (list (list Z));
  status : Z;
  flatData : slice;
  fdData : option readResultFd;
  readResult : option nat;
  startTime : Z;
  bufferPoolInputBuf : slice;
  bufferPoolOutputBuf : slice;
  outBuf : list Z;
  smallInputBuf : list Z }.

Definition set_inflightIndex (r : request) (v : Z) : request :=
  {| inflightIndex := v; cancel := cancel r; interrupted := interrupted r;
     inputBuf := inputBuf r; outputBuf := outputBuf r; arg := arg r;
     filenames := filenames r; status := status r; flatData := flatData r;
     fdData := fdData r; readResult := readResult r; startTime := startTime r;
     bufferPoolInputBuf := bufferPoolInputBuf r; bufferPoolOutputBuf := bufferPoolOutputBuf r; outBuf := outBuf r;
     smallInputBuf := smallInputBuf r |}.

Definition set_cancel (r : request) (v : option nat) : request :=
  {| inflightIndex := inflightIndex r; cancel := v; interrupted := interrupted r;
     inputBuf := inputBuf r; outputBuf := outputBuf r; arg := arg r;
     filenames := filenames r; status := status r; flatData := flatData r;
     fdData := fdData r; readResult := readResult r; startTime := startTime r;
     bufferPoolInputBuf := bufferPoolInputBuf r; bufferPoolOutputBuf := bufferPoolOutputBuf r; outBuf := outBuf r;
     smallInputBuf := smallInputBuf r |}.

Definition set_interrupted (r : request) (v : bool) : request :=
  {| inflightIndex := inflightIndex r; cancel := cancel r; interrupted := v;
     inputBuf := inputBuf r; outputBuf := outputBuf r; arg := arg r;
     filenames := filenames r; status := status r; flatData := flatData r;
     fdData := fdData r; readResult := readResult r; startTime := startTime r;
     bufferPoolInputBuf := bufferPoolInputBuf r; bufferPoolOutputBuf := bufferPoolOutputBuf r; outBuf := outBuf r;
     smallInputBuf := smallInputBuf r |}.

Definition set_inputBuf (r : request) (v : slice) : request :=
  {| inflightIndex := inflightIndex r; cancel := cancel r; interrupted := interrupted r;
     inputBuf := v; outputBuf := outputBuf r; arg := arg r;
     filenames := filenames r; status := status r; flatData := flatData r;
     fdData := fdData r; readResult := readResult r; startTime := startTime r;
     bufferPoolInputBuf := bufferPoolInputBuf r; bufferPoolOutputBuf := bufferPoolOutputBuf r; outBuf := outBuf r;
     smallInputBuf := smallInputBuf r |}.

Definition set_outputBuf (r : request) (v : slice) : request :=
  {| inflightIndex := inflightIndex r; cancel := cancel r; interrupted := interrupted r;
     inputBuf := inputBuf r; outputBuf := v; arg := arg r;
     filenames := filenames r; status := status r; flatData := flatData r;
     fdData := fdData r; readResult := readResult r; startTime := startTime r;
     bufferPoolInputBuf := bufferPoolInputBuf r; bufferPoolOutputBuf := bufferPoolOutputBuf r; outBuf := outBuf r;
     smallInputBuf := smallInputBuf r |}.

Definition set_arg (r : request) (v : slice) : request :=
  {| inflightIndex := inflightIndex r; cancel := cancel r; interrupted := interrupted r;
     inputBuf := inputBuf r; outputBuf := outputBuf r; arg := v;
     filenames := filenames r; status := status r; flatData := flatData r;
     fdData := fdData r; readResult := readResult r; startTime := startTime r;
     bufferPoolInputBuf := bufferPoolInputBuf r; bufferPoolOutputBuf := bufferPoolOutputBuf r; outBuf := outBuf r;
     smallInputBuf := smallInputBuf r |}.

Definition set_filenames (r : request) (v : option (list (list Z))) : request :=
  {| inflightIndex := inflightIndex r; cancel := cancel r; interrupted := interrupted r;
     inputBuf := inputBuf r; outputBuf := outputBuf r; arg := arg r;
     filenames := v; status := status r; flatData := flatData r;
     fdData := fdData r; readResult := readResult r; startTime := startTime r;
     bufferPoolInputBuf := bufferPoolInputBuf r; bufferPoolOutputBuf := bufferPoolOutputBuf r; outBuf := outBuf r;
     smallInputBuf := smallInputBuf r |}.

Definition set_status (r : request) (v : Z) : request :=
  {| inflightIndex := inflightIndex r; cancel := cancel r; interrupted := interrupted r;
     inputBuf := inputBuf r; outputBuf := outputBuf r; arg := arg r;
     filenames := filenames r; status := v; flatData := flatData r;
     fdData := fdData r; readResult := readResult r; startTime := startTime r;
     bufferPoolInputBuf := bufferPoolInputBuf r; bufferPoolOutputBuf := bufferPoolOutputBuf r; outBuf := outBuf r;
     smallInputBuf := smallInputBuf r |}.

Definition set_flatData (r : request) (v : slice) : request :=
  {| inflightIndex := inflightIndex r; cancel := cancel r; interrupted := interrupted r;
     inputBuf := inputBuf r; outputBuf := outputBuf r; arg := arg r;
     filenames := filenames r; status := status r; flatData := v;
     fdData := fdData r; readResult := readResult r; startTime := startTime r;
     bufferPoolInputBuf := bufferPoolInputBuf r; bufferPoolOutputBuf := bufferPoolOutputBuf r; outBuf := outBuf r;
     smallInputBuf := smallInputBuf r |}.

Definition set_fdData (r : request) (v : option readResultFd) : request :=
  {| inflightIndex := inflightIndex r; cancel := cancel r; interrupted := interrupted r;
     inputBuf := inputBuf r; outputBuf := outputBuf r; arg := arg r;
     filenames := filenames r; status := status r; flatData := flatData r;
     fdData := v; readResult := readResult r; startTime := startTime r;
     bufferPoolInputBuf := bufferPoolInputBuf r; bufferPoolOutputBuf := bufferPoolOutputBuf r; outBuf := outBuf r;
     smallInputBuf := smallInputBuf r |}.

Definition set_readResult (r : request) (v : option nat) : request :=
  {| inflightIndex := inflightIndex r; cancel := cancel r; interrupted := interrupted r;
     inputBuf := inputBuf r; outputBuf := outputBuf r; arg := arg r;
     filenames := filenames r; status := status r; flatData := flatData r;
     fdData := fdData r; readResult := v; startTime := startTime r;
     bufferPoolInputBuf := bufferPoolInputBuf r; bufferPoolOutputBuf := bufferPoolOutputBuf r; outBuf := outBuf r;
     smallInputBuf := smallInputBuf r |}.

Definition set_startTime (r : request) (v : Z) : request :=
  {| inflightIndex := inflightIndex r; cancel := cancel r; interrupted := interrupted r;
     inputBuf := inputBuf r; outputBuf := outputBuf r; arg := arg r;
     filenames := filenames r; status := status r; flatData := flatData r;
     fdData := fdData r; readResult := readResult r; startTime := v;
     bufferPoolInputBuf := bufferPoolInputBuf r; bufferPoolOutputBuf := bufferPoolOutputBuf r; outBuf := outBuf r;
     smallInputBuf := smallInputBuf r |}.

Definition set_bufferPoolInputBuf (r : request) (v : slice) : request :=
  {| inflightIndex := inflightIndex r; cancel := cancel r; interrupted := interrupted r;
     inputBuf := inputBuf r; outputBuf := outputBuf r; arg := arg r;
     filenames := filenames r; status := status r; flatData := flatData r;
     fdData := fdData r; readResult := readResult r; startTime := startTime r;
     bufferPoolInputBuf := v; bufferPoolOutputBuf := bufferPoolOutputBuf r; outBuf := outBuf r;
     smallInputBuf := smallInputBuf r |}.

Definition set_bufferPoolOutputBuf (r : request) (v : slice) : request :=
  {| inflightIndex := inflightIndex r; cancel := cancel r; interrupted := interrupted r;
     inputBuf := inputBuf r; outputBuf := outputBuf r; arg := arg r;
     filenames := filenames r; status := status r; flatData := flatData r;
     fdData := fdData r; readResult := readResult r; startTime := startTime r;
     bufferPoolInputBuf := bufferPoolInputBuf r; bufferPoolOutputBuf := v; outBuf := outBuf r;
     smallInputBuf := smallInputBuf r |}.

Definition set_outBuf (r : request) (v : list Z) : request :=
  {| inflightIndex := inflightIndex r; cancel := cancel r; interrupted := interrupted r;
     inputBuf := inputBuf r; outputBuf := outputBuf r; arg := arg r;
     filenames := filenames r; status := status r; flatData := flatData r;
     fdData := fdData r; readResult := readResult r; startTime := startTime r;
     bufferPoolInputBuf := bufferPoolInputBuf r; bufferPoolOutputBuf := bufferPoolOutputBuf r; outBuf := v;
     smallInputBuf := smallInputBuf r |}.

Definition set_smallInputBuf (r : request) (v : list Z) : request :=
  {| inflightIndex := inflightIndex r; cancel := cancel r; interrupted := interrupted r;
     inputBuf := inputBuf r; outputBuf := outputBuf r; arg := arg r;
     filenames := filenames r; status := status r; flatData := flatData r;
     fdData := fdData r; readResult := readResult r; startTime := startTime r;
     bufferPoolInputBuf := bufferPoolInputBuf r; bufferPoolOutputBuf := bufferPoolOutputBuf r; outBuf := outBuf r;
     smallInputBuf := v |}.

(** ** Memory *)

(** The bytes of an array, as seen from request [r]. *)
Definition array_bytes (r : request) (a : array) : list Z :=
  match a with
  | ANil => []
  | ASmallIn => smallInputBuf r
  | AOutBuf => outBuf r
  | AHeap _ c => c
  end.

(** The elements [s[0:len(s)]]. *)
Definition slice_bytes (r : request) (s : slice) : list Z :=
  firstn (Z.to_nat (s_len s)) (skipn (Z.to_nat (s_off s)) (array_bytes r (s_arr s))).

(** [s[lo:hi]]: panics unless [0 <= lo <= hi <= cap(s)]. *)
Definition reslice (s : slice) (lo hi : Z) : option slice :=
  if (0 <=? lo) && (lo <=? hi) && (hi <=? s_cap s)
  then Some (mkSlice (s_arr s) (s_off s + lo) (hi - lo) (s_cap s - lo))
  else None.

(** [s[lo:]] and [s[:hi]]. *)
Definition slice_from (s : slice) (lo : Z) : option slice := reslice s lo (s_len s).
Definition slice_to (s : slice) (hi : Z) : option slice := reslice s 0 hi.

(** [a[:hi]] for an inline array [a] of length [n]. *)
Definition array_prefix (a : array) (n hi : Z) : option slice :=
  if (0 <=? hi) && (hi <=? n) then Some (mkSlice a 0 hi n) else None.

(** Little-endian encoding of [n] bytes (two's complement for negative
    values) and decoding. *)
Fixpoint le_encode (n : nat) (v : Z) : list Z :=
  match n with
  | O => []
  | S k => v mod 256 :: le_encode k (v / 256)
  end.

Fixpoint le_decode (bs : list Z) : Z :=
  match bs with
  | [] => 0
  | b :: t => b + 256 * le_decode t
  end.

(** An unsafe read of an [n]-byte little-endian field at [off] in array
    [a].  The read is not bounds checked in Go; bytes past the end of the
    modelled array read as 0. *)
Definition read_mem (r : request) (a : array) (off : Z) (n : nat) : Z :=
  le_decode (firstn n (skipn (Z.to_nat off) (array_bytes r a) ++ repeat 0 n)).

(** Overwrite [l] with [bs] from [off]; the array keeps its length. *)
Definition list_write (l : list Z) (off : nat) (bs : list Z) : list Z :=
  firstn (length l) (firstn off l ++ bs ++ skipn (off + length bs) l).

Definition slice_rewrite (id : Z) (c : list Z) (s : slice) : slice :=
  match s_arr s with
  | AHeap id' _ => if id' =? id then mkSlice (AHeap id c) (s_off s) (s_len s) (s_cap s) else s
  | _ => s
  end.

(** A store through an unsafe pointer into array [a] at offset [off].
    A heap array is shared by every slice of the request into it. *)
Definition write_array (r : request) (a : array) (off : Z) (bs : list Z) : option request :=
  match a with
  | ANil => None
  | ASmallIn => Some (set_smallInputBuf r (list_write (smallInputBuf r) (Z.to_nat off) bs))
  | AOutBuf => Some (set_outBuf r (list_write (outBuf r) (Z.to_nat off) bs))
  | AHeap id c =>
      let c' := list_write c (Z.to_nat off) bs in
      let f := slice_rewrite id c' in
      Some {| inflightIndex := inflightIndex r; cancel := cancel r;
              interrupted := interrupted r; inputBuf := f (inputBuf r);
              outputBuf := f (outputBuf r); arg := f (arg r);
              filenames := filenames r; status := status r;
              flatData := f (flatData r); fdData := fdData r;
              readResult := readResult r; startTime := startTime r;
              bufferPoolInputBuf := f (bufferPoolInputBuf r);
              bufferPoolOutputBuf := f (bufferPoolOutputBuf r);
              outBuf := outBuf r; smallInputBuf := smallInputBuf r |}
  end.

(** int32 wrap-around. *)
Definition to_s32 (u : Z) : Z := if u <? 2 ^ 31 then u else u - 2 ^ 32.
Definition wrap_s32 (v : Z) : Z := to_s32 (v mod 2 ^ 32).

(** A field of the record at [&r.inputBuf[0]]: [r.inHeader()] and
    [r.inData()] both take [&r.inputBuf[0]], which panics on an empty
    [inputBuf]. *)
Definition in_field (r : request) (off : Z) (n : nat) : option Z :=
  if 0 <? s_len (inputBuf r)
  then Some (read_mem r (s_arr (inputBuf r)) (s_off (inputBuf r) + off) n)
  else None.

(** [r.inHeader().Opcode], [r.inHeader().Unique] and
    the [Size] field of the [GetXAttrIn] at [r.inData()] (the u32 right
    after the InHeader). *)
Definition in_opcode (r : request) : option Z := in_field r 4 4.
Definition in_unique (r : request) : option Z := in_field r 8 8.
Definition getxattr_in_size (r : request) : option Z := in_field r 40 4.

(** The fields of [r.outHeader()], read back from [outputBuf]. *)
Definition out_length (r : request) : Z :=
  read_mem r (s_arr (outputBuf r)) (s_off (outputBuf r)) 4.
Definition out_status (r : request) : Z :=
  to_s32 (read_mem r (s_arr (outputBuf r)) (s_off (outputBuf r) + 4) 4).
Definition out_unique (r : request) : Z :=
  read_mem r (s_arr (outputBuf r)) (s_off (outputBuf r) + 8) 8.

(** ** Byte splitting: [bytes.SplitN(s, []byte{0}, n)] *)

Fixpoint index0 (s : list Z) : option nat :=
  match s with
  | [] => None
  | b :: t => if b =? 0 then Some O else option_map S (index0 t)
  end.

Fixpoint count0 (s : list Z) : nat :=
  match s with
  | [] => O
  | b :: t => if b =? 0 then S (count0 t) else count0 t
  end.

(** The loop of Go's [genSplit]: at most [k] cuts, then the rest. *)
Fixpoint split_loop (k : nat) (s : list Z) : list (list Z) :=
  match k with
  | O => [s]
  | S k' =>
      match index0 s with
      | None => [s]
      | Some m => firstn m s :: split_loop k' (skipn (S m) s)
      end
  end.

Definition splitN (s : list Z) (n : Z) : list (list Z) :=
  if n =? 0 then []
  else
    let n := if n <? 0 then Z.of_nat (count0 s) + 1 else n in
    let n := Z.min n (Z.of_nat (length s) + 1) in
    split_loop (Z.to_nat (n - 1)) s.

(** ** The request operations *)

(** [clear]. *)
Definition clear (r : request) : request :=
  let r := set_inputBuf r nil_slice in
  let r := set_outputBuf r nil_slice in
  let r := set_arg r nil_slice in
  let r := set_filenames r None in
  let r := set_status r OK in
  let r := set_flatData r nil_slice in
  let r := set_fdData r None in
  let r := set_startTime r 0 in
  set_readResult r None.

(** [setInput]: the new request and the returned boolean. *)
Definition setInput (r : request) (input : slice) : request * bool :=
  if s_len input <? smallInputSize then
    (* copy(r.smallInputBuf[:], input) *)
    let bs := firstn (Z.to_nat smallInputSize) (slice_bytes r input) in
    let r := set_smallInputBuf r (list_write (smallInputBuf r) 0 bs) in
    (* r.inputBuf = r.smallInputBuf[:len(input)] *)
    (set_inputBuf r (mkSlice ASmallIn 0 (s_len input) smallInputSize), false)
  else
    let r := set_inputBuf r input in
    (* r.bufferPoolInputBuf = input[:cap(input)] *)
    (set_bufferPoolInputBuf r (mkSlice (s_arr input) (s_off input) (s_cap input) (s_cap input)),
     true).

(** [flatDataSize]. *)
Definition flatDataSize (r : request) : Z :=
  match fdData r with
  | Some fd => Sz fd
  | None => s_len (flatData r)
  end.

(** An entry of the opcode registry ([operationHandler]).  [InputSize] is
    [unsafe.Sizeof] of the opcode's In record, which embeds the InHeader
    (so it counts the in-header plus the fixed input record; 0 when the
    opcode has no In record), as [parse] treats it: it compares it with
    [len(r.inputBuf)] and substitutes [unsafe.Sizeof(RenameIn{})] or
    [len(r.inputBuf)] for it.  [OutputSize] is the size of the Out record,
    which follows the OutHeader. *)
Record operationHandler : Type := mkHandler {
  InputSize : Z; OutputSize : Z; FileNames : Z; FileNameOut : bool }.

Section Pipeline.

(** [getHandler]: the opcode registry. *)
Variable getHandler : Z -> option operationHandler.

(** Step 6 of [parse]: the filename arguments. *)
Definition parse_filenames (op : Z) (count : Z) (r : request) : option request :=
  if 0 <? count then
    if (count =? 1) && (op =? _OP_SETXATTR) then
      let splits := splitN (slice_bytes r (arg r)) 2 in
      let* s0 := nth_error splits 0 in
      Some (set_filenames r (Some [s0]))
    else if count =? 1 then
      let* a := slice_to (arg r) (s_len (arg r) - 1) in
      Some (set_filenames r (Some [slice_bytes r a]))
    else
      let* a := slice_to (arg r) (s_len (arg r) - 1) in
      let names := splitN (slice_bytes r a) count in
      let r := set_filenames r (Some names) in
      if Z.of_nat (length names) =? count then Some r else Some (set_status r EIO)
  else Some r.

(** [parse]; [supportsRenameSwap] is [kernelSettings.supportsRenameSwap()]. *)
Definition parse (supportsRenameSwap : bool) (r : request) : option request :=
  let* op := in_opcode r in
  match getHandler op with
  | None => Some (set_status r ENOSYS)
  | Some h =>
      let inSz := if (op =? _OP_RENAME) && supportsRenameSwap
                  then sizeof_RenameIn else InputSize h in
      let inSz := if (op =? _OP_INIT) && (s_len (arg r) <? inSz)
                  then s_len (inputBuf r) else inSz in
      if s_len (inputBuf r) <? inSz then Some (set_status r EIO) else
      let* a := if 0 <? InputSize h then slice_from (inputBuf r) inSz
                else slice_from (inputBuf r) sizeof_InHeader in
      let r := set_arg r a in
      let* r := parse_filenames op (FileNames h) r in
      let* ob := array_prefix AOutBuf outputHeaderSize (OutputSize h + sizeOfOutHeader) in
      let r := set_outputBuf r ob in
      (* copy(r.outputBuf, zeroOutBuf[:]) *)
      write_array r AOutBuf 0 (repeat 0 (Z.to_nat (Z.min (s_len ob) outputHeaderSize)))
  end.

(** The structured data length [serializeHeader] computes. *)
Definition serialize_dataLength (r : request) : option Z :=
  let* op := in_opcode r in
  let dataLength := match getHandler op with Some h => OutputSize h | None => 0 end in
  let dataLength := if OK <? status r then 0 else dataLength in
  if (op =? _OP_GETXATTR) || (op =? _OP_LISTXATTR) then
    let* sz := getxattr_in_size r in
    Some (if sz =? 0 then dataLength else 0)
  else Some dataLength.

(** [serializeHeader]. *)
Definition serializeHeader (flatDataSize : Z) (r : request) : option request :=
  let* dataLength := serialize_dataLength r in
  (* o := r.outHeader() takes &r.outputBuf[0] *)
  if s_len (outputBuf r) <=? 0 then None else
  let* uq := in_unique r in
  let* r := write_array r (s_arr (outputBuf r)) (s_off (outputBuf r) + 8) (le_encode 8 uq) in
  let* r := write_array r (s_arr (outputBuf r)) (s_off (outputBuf r) + 4)
              (le_encode 4 (wrap_s32 (- status r))) in
  let* r := write_array r (s_arr (outputBuf r)) (s_off (outputBuf r))
              (le_encode 4 ((sizeOfOutHeader + dataLength + flatDataSize) mod 2 ^ 32)) in
  let* ob := slice_to (outputBuf r) (dataLength + sizeOfOutHeader) in
  Some (set_outputBuf r ob).

End Pipeline.

(** ** The opcode registry *)

(** Modelled from the spec: the opcode registry ([getHandler] and its
    table, in fuse/opcode.go) is not among this repository's sources.  The
    spec's registry maps an opcode to its input-record size, output-record
    size and filename count; the entries below are those of the opcodes the
    development uses, with the FUSE protocol's record sizes (In records
    embed the 40-byte InHeader; EntryOut 128, AttrOut 104, GetXAttrOut 8,
    InitOut 64 bytes).  Other opcodes have no entry. *)
Definition opcodeTable (op : Z) : option operationHandler :=
  if op =? _OP_LOOKUP then Some (mkHandler 0 128 1 false)
  else if op =? _OP_GETATTR then Some (mkHandler 56 104 0 false)
  else if op =? _OP_RENAME then Some (mkHandler 48 0 2 false)
  else if op =? _OP_SETXATTR then Some (mkHandler 48 0 1 false)
  else if op =? _OP_GETXATTR then Some (mkHandler 48 8 1 false)
  else if op =? _OP_LISTXATTR then Some (mkHandler 48 8 0 false)
  else if op =? _OP_INIT then Some (mkHandler 104 64 0 false)
  else None.

(** ** Concrete frames and requests *)

(** An inbound frame: the InHeader (length, opcode, unique, nodeId, caller
    and padding zero) followed by [body]. *)
Definition mk_frame (opcode unique nodeId : Z) (body : list Z) : list Z :=
  le_encode 4 (sizeof_InHeader + Z.of_nat (length body)) ++ le_encode 4 opcode
  ++ le_encode 8 unique ++ le_encode 8 nodeId ++ repeat 0 16 ++ body.

(** A caller-owned buffer holding exactly [bs]. *)
Definition heap_slice (id : Z) (bs : list Z) : slice :=
  mkSlice (AHeap id bs) 0 (Z.of_nat (length bs)) (Z.of_nat (length bs)).

(** A new request, as [new(request)] gives it. *)
Definition new_request : request :=
  {| inflightIndex := 0; cancel := None; interrupted := false;
     inputBuf := nil_slice; outputBuf := nil_slice; arg := nil_slice;
     filenames := None; status := OK; flatData := nil_slice;
     fdData := None; readResult := None; startTime := 0;
     bufferPoolInputBuf := nil_slice; bufferPoolOutputBuf := nil_slice;
     outBuf := repeat 0 (Z.to_nat outputHeaderSize);
     smallInputBuf := repeat 0 (Z.to_nat smallInputSize) |}.

(** A new request after [setInput] with a frame held in buffer 1. *)
Definition receive (frame : list Z) : request :=
  fst (setInput new_request (heap_slice 1 frame)).

(** The reply of an identity handler: parse, keep the status and attach
    no payload, then serialize with the request's flat data size. *)
Definition roundtrip (getHandler : Z -> option operationHandler)
    (supportsRenameSwap : bool) (r : request) : option request :=
  let* r := parse getHandler supportsRenameSwap r in
  serializeHeader getHandler (flatDataSize r) r.

(** ** Auxiliary definitions for the statements *)

(** Arrays hold bytes. *)
Definition bytes_ok (l : list Z) : bool :=
  forallb (fun b => (0 <=? b) && (b <? 256)) l.

Definition is_outBuf (a : array) : bool :=
  match a with AOutBuf => true | _ => false end.

(** The registry's output-record size for [op], 0 without an entry. *)
Definition registry_out (gh : Z -> option operationHandler) (op : Z) : Z :=
  match gh op with Some h => OutputSize h | None => 0 end.

(** Modelled from the spec: the SETXATTR handler (doSetXAttr in
    fuse/opcode.go) is not among this repository's sources.  Per the spec
    (section 4.3, step 6) it consumes as the xattr value the part of [arg]
    after the first NUL: the second part of [bytes.SplitN(arg, NUL, 2)]. *)
Definition setxattr_value (a : list Z) : list Z := nth 1 (splitN a 2) [].


(** ** Concrete frames *)

Definition frame_getattr : list Z := mk_frame _OP_GETATTR 7 1 (repeat 0 16).
(** "user.foo", NUL, then four value bytes, after the 8-byte SetXAttrIn. *)
Definition frame_setxattr : list Z :=
  mk_frame _OP_SETXATTR 9 1 (repeat 0 8 ++ [117; 115; 101; 114; 46; 102; 111; 111; 0; 1; 2; 3; 4]).
Definition frame_getxattr (size : Z) : list Z :=
  mk_frame _OP_GETXATTR 7 1 (le_encode 4 size ++ repeat 0 4 ++ [97; 0]).
Definition frame_unknown : list Z := mk_frame 65535 7 1 [].
Definition frame_lookup_empty : list Z := mk_frame _OP_LOOKUP 7 1 [].
Definition frame_init (extra : nat) : list Z := mk_frame _OP_INIT 7 1 (repeat 0 extra).

(** The request after [parse] with the modelled registry. *)
Definition parsed (r : request) : request :=
  match parse opcodeTable false r with Some r' => r' | None => r end.

(** Requests after [parse]; for GETXATTR with [Size = 0] the handler
    reports [ERANGE]. *)
Definition req_getattr : request := parsed (receive frame_getattr).
Definition req_getxattr_data : request := parsed (receive (frame_getxattr 128)).

(** ** Byte joining: [bytes.Join(names, []byte{0})] *)

(** The names joined with NUL separators, as [bytes.Join] gives them. *)
Fixpoint join0 (l : list (list Z)) : list Z :=
  match l with
  | [] => []
  | x :: t => match t with [] => x | _ => x ++ 0 :: join0 t end
  end.

(** A RENAME frame: the 8-byte RenameIn, then "a", NUL, "b", NUL. *)
Definition frame_rename : list Z := mk_frame _OP_RENAME 7 1 (repeat 0 8 ++ [97; 0; 98; 0]).
(** A RENAME frame with one name only. *)
Definition frame_rename_one : list Z := mk_frame _OP_RENAME 7 1 (repeat 0 8 ++ [97; 0]).

(** The request after [serializeHeader] with the modelled registry and no
    flat data. *)
Definition serialized (r : request) : request :=
  match serializeHeader opcodeTable 0 r with Some r' => r' | None => r end.

(** ** The debug strings: [InputDebug] and [OutputDebug] *)

Import String.StringSyntax.
Delimit Scope string_scope with string.
Local Notation "a +s+ b" := (String.append a b) (at level 60, right associativity).

(** [r.inHeader().NodeId] and [r.inHeader().Caller.Pid]. *)
Definition in_nodeId (r : request) : option Z := in_field r 16 8.
Definition in_pid (r : request) : option Z := in_field r 32 4.

(** fmt's [%d]: the decimal digits, with a minus sign for a negative value. *)
Fixpoint digits (fuel : nat) (n : Z) (acc : String.string) : String.string :=
  match fuel with
  | O => acc
  | S f =>
      let acc := String.String (Ascii.ascii_of_nat (48 + Z.to_nat (n mod 10))) acc in
      if n <? 10 then acc else digits f (n / 10) acc
  end.

Definition decimal (v : Z) : String.string :=
  let n := Z.abs v in
  let s := digits (S (Z.to_nat (Z.log2 n))) n String.EmptyString in
  if v <? 0 then "-"%string +s+ s else s.

(** [strings.TrimRight(s, "\x00")]. *)
Fixpoint drop0 (l : list Z) : list Z :=
  match l with
  | b :: t => if b =? 0 then drop0 t else l
  | [] => []
  end.

Definition trimRight0 (s : list Z) : list Z := rev (drop0 (rev s)).

(** A (possibly nil) string list's [len]. *)
Definition names_len (fs : option (list (list Z))) : nat :=
  match fs with Some l => length l | None => O end.

(** [h != nil && h.FileNameOut]. *)
Definition file_name_out (gh : Z -> option operationHandler) (op : Z) : bool :=
  match gh op with Some h => FileNameOut h | None => false end.

Section Debug.

Variable getHandler : Z -> option operationHandler.
(** [h.InType != nil] and [h.OutType != nil]. *)
Variables hasInType hasOutType : operationHandler -> bool.
(** [Print(asType(p, h.InType))] and [Print(asType(p, h.OutType))]: the
    text the package's [Print] gives for the handler's In or Out record
    stored at [p], given the memory from [p] on. *)
Variables PrintIn PrintOut : operationHandler -> list Z -> String.string.
(** fmt's [%q] of a byte slice or string, and of a [[]string]. *)
Variable quote : list Z -> String.string.
Variable quoteList : list (list Z) -> String.string.
(** [operationName(op)], and the [%v] text of a [Status]. *)
Variable operationName : Z -> String.string.
Variable statusString : Z -> String.string.

(** [InputDebug]. *)
Definition InputDebug (r : request) : option String.string :=
  let* op := in_opcode r in
  let* val :=
    match getHandler op with
    | Some h =>
        if hasInType h then
          (* r.inData() takes &r.inputBuf[0] *)
          if 0 <? s_len (inputBuf r)
          then Some (PrintIn h (skipn (Z.to_nat (s_off (inputBuf r)))
                                      (array_bytes r (s_arr (inputBuf r)))))
          else None
        else Some ""%string
    | None => Some ""%string
    end in
  let names := match filenames r with
               | Some fs => quoteList fs
               | None => ""%string
               end in
  let* names :=
    if 0 <? s_len (arg r) then
      let l := s_len (arg r) in
      let* data :=
        if Nat.eqb (names_len (filenames r)) 0 then
          let ld := if 8 <? l then (8, "..."%string) else (l, ""%string) in
          let* a := slice_to (arg r) (fst ld) in
          Some (quote (slice_bytes r a) +s+ snd ld)
        else Some ""%string in
      Some (names +s+ data +s+ " "%string +s+ decimal (s_len (arg r)) +s+ "b"%string)
    else Some names in
  let* uq := in_unique r in
  let* nid := in_nodeId r in
  let* pid := in_pid r in
  Some ("rx "%string +s+ decimal uq +s+ ": "%string +s+ operationName op +s+
        " n"%string +s+ decimal nid +s+ " "%string +s+ val +s+ names +s+
        " p"%string +s+ decimal pid).

(** [OutputDebug]. *)
Definition OutputDebug (r : request) : option String.string :=
  let* op := in_opcode r in
  let h := getHandler op in
  let* dataStr :=
    match h with
    | Some h' =>
        if hasOutType h' && (sizeOfOutHeader <? s_len (outputBuf r)) then
          (* r.outData() takes &r.outputBuf[sizeOfOutHeader] *)
          if sizeOfOutHeader <? s_len (outputBuf r)
          then Some (PrintOut h' (skipn (Z.to_nat (s_off (outputBuf r) + sizeOfOutHeader))
                                        (array_bytes r (s_arr (outputBuf r)))))
          else None
        else Some ""%string
    | None => Some ""%string
    end in
  let dataStr :=
    if 1024 <? Z.of_nat (String.length dataStr)
    then String.substring 0 1024 dataStr +s+ " ...trimmed"%string
    else dataStr in
  let* flatStr :=
    if 0 <? flatDataSize r then
      if file_name_out getHandler op then
        let s := trimRight0 (slice_bytes r (flatData r)) in
        Some (" "%string +s+ quote s)
      else
        let* spl :=
          match fdData r with
          | Some _ => Some " (fd data)"%string
          | None =>
              let l := s_len (flatData r) in
              let ls := if 8 <? l then (8, "..."%string) else (l, ""%string) in
              let* f := slice_to (flatData r) (fst ls) in
              Some (" "%string +s+ quote (slice_bytes r f) +s+ snd ls)
          end in
        Some (" "%string +s+ decimal (flatDataSize r) +s+ "b data"%string +s+ spl)
    else Some ""%string in
  let extraStr := dataStr +s+ flatStr in
  let extraStr := if String.eqb extraStr "" then ""%string else ", "%string +s+ extraStr in
  let* uq := in_unique r in
  Some ("tx "%string +s+ decimal uq +s+ ":     "%string +s+ statusString (status r) +s+ extraStr).

End Debug.

(** Formatters for the examples: every value prints as [v]. *)
Definition fmt_handler (_ : operationHandler) (_ : list Z) : String.string := "v"%string.
Definition fmt_bytes (_ : list Z) : String.string := "q"%string.
Definition fmt_names (_ : list (list Z)) : String.string := "n"%string.
Definition fmt_code (_ : Z) : String.string := "c"%string.

(** A GETATTR reply with ten bytes of flat data, and flat data that agrees
    with it on the first eight bytes only. *)
Definition req_flat10 : request :=
  set_flatData req_getattr (heap_slice 2 [1; 2; 3; 4; 5; 6; 7; 8; 9; 10]).
Definition flat10_other : slice := heap_slice 3 [1; 2; 3; 4; 5; 6; 7; 8; 99; 99].

(** A GETATTR request whose argument has ten bytes, and another argument
    with the same first eight bytes. *)
Definition req_arg10 : request :=
  set_arg req_getattr (heap_slice 2 [1; 2; 3; 4; 5; 6; 7; 8; 9; 10]).
(** * Properties *)

(** ** Encoding and memory lemmas *)

Lemma length_le_encode : forall n v, length (le_encode n v) = n.
Proof. induction n; intros v; simpl; [reflexivity | now rewrite IHn]. Qed.

Lemma le_decode_encode : forall n v, le_decode (le_encode n v) = v mod 2 ^ (8 * Z.of_nat n).
Proof.
  induction n as [|n IH]; intros v.
  - simpl. now rewrite Z.mod_1_r.
  - cbn [le_encode le_decode]. rewrite IH.
    set (M := 2 ^ (8 * Z.of_nat n)).
    assert (HM : 0 < M) by (apply Z.pow_pos_nonneg; lia).
    replace (2 ^ (8 * Z.of_nat (S n))) with (256 * M)
      by (unfold M; rewrite Nat2Z.inj_succ, Z.mul_succ_r, Z.pow_add_r by lia; lia).
    apply Z.mod_unique with (q := v / 256 / M).
    + left. pose proof (Z.mod_pos_bound v 256 ltac:(lia)).
      pose proof (Z.mod_pos_bound (v / 256) M HM). nia.
    + pose proof (Z.div_mod v 256 ltac:(lia)).
      pose proof (Z.div_mod (v / 256) M ltac:(lia)). nia.
Qed.

Lemma firstn_app_short : forall (A : Type) n (l1 l2 : list A),
  (n <= length l1)%nat -> firstn n (l1 ++ l2) = firstn n l1.
Proof.
  intros. rewrite firstn_app. replace (n - length l1)%nat with O by lia.
  simpl. apply app_nil_r.
Qed.

Lemma length_list_write : forall l off bs, length (list_write l off bs) = length l.
Proof.
  intros. unfold list_write. rewrite length_firstn, !length_app, length_firstn, length_skipn.
  lia.
Qed.

Lemma list_write_read_same : forall l off bs,
  (off + length bs <= length l)%nat ->
  firstn (length bs) (skipn off (list_write l off bs)) = bs.
Proof.
  intros l off bs H. unfold list_write.
  rewrite (firstn_all2 (n := length l)) by (rewrite !length_app, length_firstn, length_skipn; lia).
  rewrite skipn_app, length_firstn, Nat.min_l by lia.
  rewrite skipn_all2 by (rewrite length_firstn; lia).
  replace (off - off)%nat with O by lia. simpl.
  rewrite firstn_app_short by lia. apply firstn_all.
Qed.

Lemma list_write_read_other : forall l off bs o n,
  (off + length bs <= length l)%nat ->
  (o + n <= off \/ off + length bs <= o)%nat ->
  firstn n (skipn o (list_write l off bs)) = firstn n (skipn o l).
Proof.
  intros l off bs o n H Hd. unfold list_write.
  rewrite (firstn_all2 (n := length l)) by (rewrite !length_app, length_firstn, length_skipn; lia).
  destruct Hd as [Hd | Hd].
  - rewrite skipn_app, firstn_app_short
      by (rewrite length_skipn, length_firstn; lia).
    rewrite skipn_firstn_comm, firstn_firstn, Nat.min_l by lia. reflexivity.
  - rewrite skipn_app, skipn_all2 by (rewrite length_firstn; lia).
    rewrite length_firstn, Nat.min_l by lia. simpl.
    rewrite skipn_app, skipn_all2 by lia. simpl.
    rewrite skipn_skipn. f_equal. f_equal. lia.
Qed.

(** A read inside an array ignores the zero padding. *)
Lemma read_mem_inside : forall r a off n,
  0 <= off -> (Z.to_nat off + n <= length (array_bytes r a))%nat ->
  read_mem r a off n = le_decode (firstn n (skipn (Z.to_nat off) (array_bytes r a))).
Proof.
  intros. unfold read_mem. f_equal. apply firstn_app_short.
  rewrite length_skipn. lia.
Qed.


Lemma bytes_ok_firstn : forall n l, bytes_ok l = true -> bytes_ok (firstn n l) = true.
Proof.
  unfold bytes_ok. intros n l H. rewrite forallb_forall in *. intros x Hx.
  apply H. rewrite <- (firstn_skipn n l). apply in_or_app. now left.
Qed.

Lemma bytes_ok_skipn : forall n l, bytes_ok l = true -> bytes_ok (skipn n l) = true.
Proof.
  unfold bytes_ok. intros n l H. rewrite forallb_forall in *. intros x Hx.
  apply H. rewrite <- (firstn_skipn n l). apply in_or_app. now right.
Qed.

Lemma bytes_ok_app : forall l1 l2,
  bytes_ok l1 = true -> bytes_ok l2 = true -> bytes_ok (l1 ++ l2) = true.
Proof. unfold bytes_ok. intros. rewrite forallb_app. now apply andb_true_intro. Qed.

Lemma bytes_ok_repeat0 : forall n, bytes_ok (repeat 0 n) = true.
Proof. induction n; simpl; auto. Qed.

Lemma le_decode_range : forall l,
  bytes_ok l = true -> 0 <= le_decode l < 2 ^ (8 * Z.of_nat (length l)).
Proof.
  induction l as [|b t IH]; intros H; unfold bytes_ok in *; cbn [le_decode length forallb] in *.
  - simpl. lia.
  - apply andb_prop in H as [Hb Ht]. apply andb_prop in Hb as [H0 H1].
    apply Z.leb_le in H0. apply Z.ltb_lt in H1. specialize (IH Ht).
    rewrite Nat2Z.inj_succ, Z.mul_succ_r, Z.pow_add_r by lia. nia.
Qed.

Lemma read_mem_range : forall r a off n,
  bytes_ok (array_bytes r a) = true -> 0 <= read_mem r a off n < 2 ^ (8 * Z.of_nat n).
Proof.
  intros. unfold read_mem.
  assert (Hl : length (firstn n (skipn (Z.to_nat off) (array_bytes r a) ++ repeat 0 n)) = n).
  { rewrite length_firstn, length_app, repeat_length. lia. }
  set (l := firstn n _). rewrite <- Hl. apply le_decode_range. unfold l.
  apply bytes_ok_firstn, bytes_ok_app.
  - now apply bytes_ok_skipn.
  - apply bytes_ok_repeat0.
Qed.

Lemma wrap_s32_mod : forall v, wrap_s32 v mod 2 ^ 32 = v mod 2 ^ 32.
Proof.
  intros v. unfold wrap_s32, to_s32.
  destruct (v mod 2 ^ 32 <? 2 ^ 31).
  - apply Z.mod_mod. lia.
  - replace (v mod 2 ^ 32 - 2 ^ 32) with (v mod 2 ^ 32 + (-1) * 2 ^ 32) by lia.
    rewrite Z.mod_add, Z.mod_mod; lia.
Qed.

(** [array_bytes] depends only on the inline arrays of the request. *)
Lemma array_bytes_set_outputBuf : forall r v a,
  array_bytes (set_outputBuf r v) a = array_bytes r a.
Proof. intros r v []; reflexivity. Qed.

(** A store through [&r.outputBuf[0]]. *)
Lemma write_outputBuf : forall r off bs,
  (0 < length (array_bytes r (s_arr (outputBuf r))))%nat ->
  exists r', write_array r (s_arr (outputBuf r)) off bs = Some r' /\
    s_off (outputBuf r') = s_off (outputBuf r) /\
    s_len (outputBuf r') = s_len (outputBuf r) /\
    s_cap (outputBuf r') = s_cap (outputBuf r) /\
    array_bytes r' (s_arr (outputBuf r')) =
      list_write (array_bytes r (s_arr (outputBuf r))) (Z.to_nat off) bs /\
    status r' = status r.
Proof.
  intros r off bs H. destruct (outputBuf r) as [a o l c] eqn:Eo. simpl in *.
  destruct a as [| | | id cs]; simpl in H.
  - lia.
  - eexists; split; [reflexivity|]. simpl. rewrite Eo. simpl. auto.
  - eexists; split; [reflexivity|]. simpl. rewrite Eo. simpl. auto.
  - eexists; split; [reflexivity|]. simpl. rewrite Eo. unfold slice_rewrite. simpl.
    rewrite Z.eqb_refl. simpl. auto.
Qed.

(** ** The serializer *)

Lemma read_mem_set_outputBuf : forall r v a off n,
  read_mem (set_outputBuf r v) a off n = read_mem r a off n.
Proof. intros. unfold read_mem. now rewrite array_bytes_set_outputBuf. Qed.

Lemma serializeHeader_spec : forall gh fds r dl uq,
  serialize_dataLength gh r = Some dl ->
  in_unique r = Some uq ->
  0 < s_len (outputBuf r) ->
  0 <= s_off (outputBuf r) ->
  (Z.to_nat (s_off (outputBuf r)) + 16 <= length (array_bytes r (s_arr (outputBuf r))))%nat ->
  0 <= dl + sizeOfOutHeader <= s_cap (outputBuf r) ->
  exists r', serializeHeader gh fds r = Some r' /\
    out_unique r' = uq mod 2 ^ 64 /\
    out_status r' = wrap_s32 (- status r) /\
    out_length r' = (sizeOfOutHeader + dl + fds) mod 2 ^ 32 /\
    s_off (outputBuf r') = s_off (outputBuf r) /\
    s_len (outputBuf r') = dl + sizeOfOutHeader /\
    status r' = status r.
Proof.
  intros gh fds r dl uq Hdl Huq Hlen Hoff Harr Hcap.
  unfold serializeHeader. rewrite Hdl.
  replace (s_len (outputBuf r) <=? 0) with false by (symmetry; apply Z.leb_gt; lia).
  rewrite Huq.
  destruct (write_outputBuf r (s_off (outputBuf r) + 8) (le_encode 8 uq))
    as [r1 [E1 [O1 [L1 [C1 [A1 S1]]]]]]; [lia|].
  rewrite E1.
  destruct (write_outputBuf r1 (s_off (outputBuf r1) + 4) (le_encode 4 (wrap_s32 (- status r1))))
    as [r2 [E2 [O2 [L2 [C2 [A2 S2]]]]]];
    [rewrite A1, length_list_write; lia|].
  rewrite E2.
  destruct (write_outputBuf r2 (s_off (outputBuf r2))
              (le_encode 4 ((sizeOfOutHeader + dl + fds) mod 2 ^ 32)))
    as [r3 [E3 [O3 [L3 [C3 [A3 S3]]]]]];
    [rewrite A2, length_list_write, A1, length_list_write; lia|].
  rewrite E3.
  unfold slice_to, reslice.
  replace ((0 <=? 0) && (0 <=? dl + sizeOfOutHeader) && (dl + sizeOfOutHeader <=? s_cap (outputBuf r3)))
    with true by (symmetry; rewrite C3, C2, C1; apply andb_true_intro; split;
                  [apply andb_true_intro; split|]; apply Z.leb_le; lia).
  eexists; split; [reflexivity|].
  rewrite O1 in A2, O2. rewrite O2 in A3, O3. rewrite S1 in A2.
  set (o := s_off (outputBuf r)) in *.
  set (A := array_bytes r (s_arr (outputBuf r))) in *.
  rewrite A1 in A2. rewrite A2 in A3. clear A1 A2.
  rewrite !Z2Nat.inj_add in A3 by lia.
  unfold out_unique, out_status, out_length.
  cbn [set_outputBuf outputBuf s_arr s_off s_len s_cap status].
  rewrite !read_mem_set_outputBuf, !Z.add_0_r.
  assert (Hl : (Z.to_nat o + 16 <= length A)%nat) by lia.
  rewrite !read_mem_inside by (rewrite ?A3, ?length_list_write; lia).
  rewrite A3, O3.
  rewrite !Z2Nat.inj_add by lia.
  change (Z.to_nat 8) with 8%nat. change (Z.to_nat 4) with 4%nat.
  rewrite S3, S2, S1.
  repeat split; try lia.
  - rewrite list_write_read_other by (rewrite ?length_list_write, ?length_le_encode; lia).
    rewrite list_write_read_other by (rewrite ?length_list_write, ?length_le_encode; lia).
    rewrite <- (length_le_encode 8 uq) at 1.
    rewrite list_write_read_same by (rewrite ?length_le_encode; lia).
    rewrite le_decode_encode. reflexivity.
  - rewrite list_write_read_other by (rewrite ?length_list_write, ?length_le_encode; lia).
    rewrite <- (length_le_encode 4 (wrap_s32 (- status r))) at 1.
    rewrite list_write_read_same by (rewrite ?length_list_write, ?length_le_encode; lia).
    rewrite le_decode_encode. change (8 * Z.of_nat 4) with 32.
    rewrite wrap_s32_mod. reflexivity.
  - rewrite <- (length_le_encode 4 ((sizeOfOutHeader + dl + fds) mod 2 ^ 32)) at 1.
    rewrite list_write_read_same by (rewrite ?length_list_write, ?length_le_encode; lia).
    rewrite le_decode_encode. change (8 * Z.of_nat 4) with 32.
    apply Z.mod_mod. lia.
Qed.



Lemma serialize_dataLength_eq : forall gh r op sz,
  in_opcode r = Some op -> getxattr_in_size r = Some sz ->
  serialize_dataLength gh r =
    Some (if ((op =? _OP_GETXATTR) || (op =? _OP_LISTXATTR)) && negb (sz =? 0) then 0
          else if OK <? status r then 0 else registry_out gh op).
Proof.
  intros gh r op sz Hop Hsz. unfold serialize_dataLength, registry_out.
  rewrite Hop, Hsz.
  destruct ((op =? _OP_GETXATTR) || (op =? _OP_LISTXATTR)); simpl; [|reflexivity].
  destruct (sz =? 0); reflexivity.
Qed.

Lemma in_unique_range : forall r uq,
  in_unique r = Some uq -> bytes_ok (array_bytes r (s_arr (inputBuf r))) = true ->
  uq mod 2 ^ 64 = uq.
Proof.
  unfold in_unique, in_field. intros r uq H Hb.
  destruct (0 <? s_len (inputBuf r)); [|discriminate]. injection H as <-.
  apply Z.mod_small. apply (read_mem_range _ _ _ 8 Hb).
Qed.

(** ** The parser *)

Lemma parse_filenames_frame : forall op c r r',
  parse_filenames op c r = Some r' ->
  inputBuf r' = inputBuf r /\ outputBuf r' = outputBuf r /\ arg r' = arg r /\
  flatData r' = flatData r /\ fdData r' = fdData r /\
  smallInputBuf r' = smallInputBuf r /\ outBuf r' = outBuf r /\
  (status r' = status r \/ status r' = EIO).
Proof.
  unfold parse_filenames. intros op c r r' H.
  destruct (0 <? c); [|injection H as <-; auto 10].
  destruct ((c =? 1) && (op =? _OP_SETXATTR)).
  - destruct (nth_error _ 0); [injection H as <-; simpl; auto 10 | discriminate].
  - destruct (c =? 1).
    + destruct (slice_to _ _); [injection H as <-; simpl; auto 10 | discriminate].
    + destruct (slice_to _ _); [|discriminate].
      destruct (Z.of_nat _ =? c); injection H as <-; simpl; auto 10.
Qed.

Lemma slice_bytes_from : forall r s lo s',
  slice_from s lo = Some s' -> 0 <= s_off s ->
  slice_bytes r s' = skipn (Z.to_nat lo) (slice_bytes r s).
Proof.
  unfold slice_from, reslice, slice_bytes. intros r s lo s' H Ho.
  destruct ((0 <=? lo) && (lo <=? s_len s) && (s_len s <=? s_cap s)) eqn:E; [|discriminate].
  injection H as <-. rewrite !andb_true_iff, !Z.leb_le in E. simpl.
  rewrite skipn_firstn_comm, skipn_skipn.
  f_equal; [lia|]. f_equal. lia.
Qed.

Lemma parse_recognized : forall gh sw r op h r1,
  in_opcode r = Some op -> gh op = Some h -> parse gh sw r = Some r1 ->
  let inSz0 := if (op =? _OP_RENAME) && sw then sizeof_RenameIn else InputSize h in
  let inSz := if (op =? _OP_INIT) && (s_len (arg r) <? inSz0) then s_len (inputBuf r) else inSz0 in
  (s_len (inputBuf r) < inSz /\ r1 = set_status r EIO) \/
  (inSz <= s_len (inputBuf r) /\
   slice_from (inputBuf r) (if 0 <? InputSize h then inSz else sizeof_InHeader) = Some (arg r1) /\
   inputBuf r1 = inputBuf r /\
   outputBuf r1 = mkSlice AOutBuf 0 (OutputSize h + sizeOfOutHeader) outputHeaderSize /\
   0 <= OutputSize h + sizeOfOutHeader <= outputHeaderSize /\
   flatData r1 = flatData r /\ fdData r1 = fdData r /\
   smallInputBuf r1 = smallInputBuf r /\ length (outBuf r1) = length (outBuf r) /\
   (status r1 = status r \/ status r1 = EIO)).
Proof.
  intros gh sw r op h r1 Hop Hh Hp inSz0 inSz.
  unfold parse in Hp. rewrite Hop, Hh in Hp. fold inSz0 in Hp. fold inSz in Hp.
  destruct (s_len (inputBuf r) <? inSz) eqn:Elt.
  - left. apply Z.ltb_lt in Elt. injection Hp as <-. auto.
  - right. apply Z.ltb_ge in Elt.
    destruct (if 0 <? InputSize h then slice_from (inputBuf r) inSz
              else slice_from (inputBuf r) sizeof_InHeader) as [a|] eqn:Ea; [|discriminate].
    destruct (parse_filenames op (FileNames h) (set_arg r a)) as [r2|] eqn:Ef; [|discriminate].
    apply parse_filenames_frame in Ef. simpl in Ef.
    destruct Ef as (I2 & O2 & A2 & F2 & D2 & S2 & B2 & St2).
    unfold array_prefix in Hp.
    destruct ((0 <=? OutputSize h + sizeOfOutHeader) && (OutputSize h + sizeOfOutHeader <=? outputHeaderSize))
      eqn:Eo; [|discriminate].
    rewrite andb_true_iff, !Z.leb_le in Eo.
    simpl in Hp. injection Hp as <-. simpl.
    rewrite length_list_write. repeat split; try congruence; try lia.
    destruct (0 <? InputSize h); congruence.
Qed.

Lemma index0_prefix : forall name rest,
  forallb (fun b => negb (b =? 0)) name = true ->
  index0 (name ++ 0 :: rest) = Some (length name).
Proof.
  induction name as [|b t IH]; intros rest H; simpl in *; [reflexivity|].
  apply andb_prop in H as [Hb Ht]. apply negb_true_iff in Hb. rewrite Hb.
  now rewrite IH.
Qed.

Lemma splitN_first_nul : forall name value,
  forallb (fun b => negb (b =? 0)) name = true ->
  splitN (name ++ 0 :: value) 2 = [name; value].
Proof.
  intros name value H. unfold splitN. simpl.
  rewrite length_app. simpl.
  replace (Z.min 2 (Z.of_nat (length name + S (length value)) + 1) - 1) with 1 by lia.
  simpl. rewrite index0_prefix by exact H.
  rewrite firstn_app_short, firstn_all by lia.
  do 2 f_equal. clear H. induction name as [|b t IH]; [reflexivity|]. exact IH.
Qed.

Lemma slice_bytes_frame : forall r r' s,
  smallInputBuf r' = smallInputBuf r -> is_outBuf (s_arr s) = false ->
  slice_bytes r' s = slice_bytes r s.
Proof.
  intros r r' [a o l c] Hs Ha. unfold slice_bytes. simpl in *.
  destruct a; simpl in *; congruence.
Qed.

Lemma slice_from_some : forall s lo,
  0 <= lo <= s_len s -> s_len s <= s_cap s -> exists s', slice_from s lo = Some s'.
Proof.
  intros s lo H1 H2. unfold slice_from, reslice.
  replace ((0 <=? lo) && (lo <=? s_len s) && (s_len s <=? s_cap s)) with true
    by (symmetry; rewrite !andb_true_iff, !Z.leb_le; lia).
  eauto.
Qed.

Lemma in_field_frame : forall r r1 off n,
  inputBuf r1 = inputBuf r -> smallInputBuf r1 = smallInputBuf r ->
  is_outBuf (s_arr (inputBuf r)) = false ->
  in_field r1 off n = in_field r off n.
Proof.
  intros r r1 off n Hi Hs Ho. unfold in_field, read_mem. rewrite Hi.
  replace (array_bytes r1 (s_arr (inputBuf r))) with (array_bytes r (s_arr (inputBuf r)));
    [reflexivity|].
  destruct (s_arr (inputBuf r)); simpl in *; congruence.
Qed.

(** * The claims *)

Ltac discharge :=
  first [ reflexivity | left; reflexivity | vm_compute; lia
        | vm_compute; reflexivity | vm_compute; discriminate ].

(** ** The out-header *)

(** C1 (as amended): [serializeHeader (r.flatDataSize())] writes into the
    out-header the inbound unique, the status negated as an int32, and the
    length out-header size + structured length + flat data size (as a
    uint32, modulo 2^32); it truncates [outputBuf] to out-header size +
    structured length.  The structured length is the registry entry's
    output size (0 without an entry), 0 when the status is positive, and
    also 0 for GETXATTR and LISTXATTR when the input's [Size] is nonzero. *)
Theorem serializeHeader_outHeader : forall gh r op uq sz,
  in_opcode r = Some op -> in_unique r = Some uq -> getxattr_in_size r = Some sz ->
  bytes_ok (array_bytes r (s_arr (inputBuf r))) = true ->
  0 < s_len (outputBuf r) -> 0 <= s_off (outputBuf r) ->
  (Z.to_nat (s_off (outputBuf r)) + 16 <= length (array_bytes r (s_arr (outputBuf r))))%nat ->
  0 <= registry_out gh op -> registry_out gh op + sizeOfOutHeader <= s_cap (outputBuf r) ->
  let structured_length :=
    if OK <? status r then 0
    else if ((op =? _OP_GETXATTR) || (op =? _OP_LISTXATTR)) && negb (sz =? 0) then 0
    else registry_out gh op in
  match serializeHeader gh (flatDataSize r) r with
  | Some r' =>
      out_unique r' = uq /\ out_status r' = wrap_s32 (- status r) /\
      out_length r' = (sizeOfOutHeader + structured_length + flatDataSize r) mod 2 ^ 32 /\
      s_off (outputBuf r') = s_off (outputBuf r) /\
      s_len (outputBuf r') = sizeOfOutHeader + structured_length
  | None => False
  end.
Proof.
  intros gh r op uq sz Hop Huq Hsz Hb Hlen Hoff Harr Hr0 Hr1 sl.
  pose proof (serialize_dataLength_eq gh r op sz Hop Hsz) as Hdl.
  assert (Hsl : (if ((op =? _OP_GETXATTR) || (op =? _OP_LISTXATTR)) && negb (sz =? 0) then 0
                 else if OK <? status r then 0 else registry_out gh op) = sl).
  { unfold sl. destruct (OK <? status r), (_ && _); reflexivity. }
  rewrite Hsl in Hdl.
  assert (Hr : 0 <= sl + sizeOfOutHeader <= s_cap (outputBuf r)).
  { unfold sl. destruct (OK <? status r), (_ && _); unfold sizeOfOutHeader in *; lia. }
  destruct (serializeHeader_spec gh (flatDataSize r) r sl uq Hdl Huq Hlen Hoff Harr Hr)
    as (r' & E & U & St & L & O & Ln & _).
  rewrite E. rewrite (in_unique_range r uq Huq Hb) in U.
  repeat split; auto. rewrite Ln. apply Z.add_comm.
Qed.

(** Witness of C1: a GETATTR request whose handler returned OK. *)
Lemma serializeHeader_outHeader_witness :
  match serializeHeader opcodeTable (flatDataSize req_getattr) req_getattr with
  | Some r' =>
      out_unique r' = 7 /\ out_status r' = wrap_s32 (- status req_getattr) /\
      out_length r' = (sizeOfOutHeader + 104 + flatDataSize req_getattr) mod 2 ^ 32 /\
      s_off (outputBuf r') = s_off (outputBuf req_getattr) /\
      s_len (outputBuf r') = sizeOfOutHeader + 104
  | None => False
  end.
Proof.
  exact (serializeHeader_outHeader opcodeTable req_getattr _OP_GETATTR 7 0
           ltac:(discharge) ltac:(discharge) ltac:(discharge) ltac:(discharge)
           ltac:(discharge) ltac:(discharge) ltac:(discharge) ltac:(discharge)
           ltac:(discharge)).
Defined.

(** C1 as stated fails: for a GETXATTR data fetch ([Size = 128]) with
    status OK, the registry's output size is 8, yet the reply's length
    and [outputBuf] cover the out-header alone. *)
Lemma serializeHeader_outHeader_counterexample :
  status req_getxattr_data = OK /\ getxattr_in_size req_getxattr_data = Some 128 /\
  registry_out opcodeTable _OP_GETXATTR = 8 /\
  match serializeHeader opcodeTable (flatDataSize req_getxattr_data) req_getxattr_data with
  | Some r' =>
      out_length r' = sizeOfOutHeader /\ s_len (outputBuf r') = sizeOfOutHeader /\
      out_length r' <> sizeOfOutHeader + 8 + flatDataSize req_getxattr_data
  | None => False
  end.
Proof. vm_compute. repeat split; discriminate. Qed.

(** ** GETXATTR and LISTXATTR *)




(** ** Unknown opcodes and malformed frames *)

(** C3 (code defect): on a new request (empty [outputBuf]) with an unknown
    opcode, [parse] sets ENOSYS and returns before preparing [outputBuf];
    [serializeHeader] then takes [&r.outputBuf[0]] and panics. *)
Theorem unknown_opcode_serialize_panics :
  parse opcodeTable false (receive frame_unknown) =
    Some (set_status (receive frame_unknown) ENOSYS) /\
  s_len (outputBuf (receive frame_unknown)) = 0 /\
  roundtrip opcodeTable false (receive frame_unknown) = None.
Proof. vm_compute. repeat split. Qed.

(** C4 (code defect): parse followed by serializeHeader panics on two
    inputs: a LOOKUP frame with an empty name region ([r.arg[:len(r.arg)-1]]
    slices to -1 in [parse]) and an unknown opcode ([serializeHeader]
    indexes the unset [outputBuf]). *)
Theorem parse_serialize_can_panic :
  parse opcodeTable false (receive frame_lookup_empty) = None /\
  roundtrip opcodeTable false (receive frame_lookup_empty) = None /\
  roundtrip opcodeTable false (receive frame_unknown) = None.
Proof. vm_compute. repeat split. Qed.

(** ** SETXATTR *)

(** C5: for a SETXATTR request whose argument region is a name without
    NUL, a NUL and value bytes, [parse] sets [filenames] to the name alone
    and leaves [arg] whole, so the handler reads the value bytes after the
    first NUL. *)
Theorem parse_setxattr_name_value : forall gh sw r h name value,
  in_opcode r = Some _OP_SETXATTR -> gh _OP_SETXATTR = Some h ->
  FileNames h = 1 -> 0 < InputSize h -> InputSize h <= s_len (inputBuf r) ->
  0 <= s_off (inputBuf r) -> s_len (inputBuf r) <= s_cap (inputBuf r) ->
  is_outBuf (s_arr (inputBuf r)) = false ->
  0 <= OutputSize h -> OutputSize h + sizeOfOutHeader <= outputHeaderSize ->
  forallb (fun b => negb (b =? 0)) name = true ->
  skipn (Z.to_nat (InputSize h)) (slice_bytes r (inputBuf r)) = name ++ 0 :: value ->
  match parse gh sw r with
  | Some r' =>
      filenames r' = Some [name] /\
      slice_bytes r' (arg r') = name ++ 0 :: value /\
      setxattr_value (slice_bytes r' (arg r')) = value
  | None => False
  end.
Proof.
  intros gh sw r h name value Hop Hh Hf Hin Hlen Hoff Hcap Hnb Ho1 Ho2 Hname Hbytes.
  unfold parse. rewrite Hop, Hh. cbv zeta.
  change ((_OP_SETXATTR =? _OP_RENAME) && sw) with false. cbv iota.
  replace ((_OP_SETXATTR =? _OP_INIT) && (s_len (arg r) <? InputSize h)) with false
    by reflexivity.
  cbv iota.
  replace (s_len (inputBuf r) <? InputSize h) with false by (symmetry; apply Z.ltb_ge; lia).
  replace (0 <? InputSize h) with true by (symmetry; apply Z.ltb_lt; lia).
  destruct (slice_from_some (inputBuf r) (InputSize h)) as [a Ea]; [lia | lia |].
  rewrite Ea.
  assert (Ha : slice_bytes r a = name ++ 0 :: value).
  { rewrite (slice_bytes_from r _ _ _ Ea Hoff). exact Hbytes. }
  assert (Harr : s_arr a = s_arr (inputBuf r)).
  { unfold slice_from, reslice in Ea. destruct (_ && _); [now injection Ea as <- | discriminate]. }
  unfold parse_filenames. rewrite Hf.
  change ((1 =? 1) && (_OP_SETXATTR =? _OP_SETXATTR)) with true. cbv iota.
  change (0 <? 1) with true. cbv iota.
  replace (slice_bytes (set_arg r a) (arg (set_arg r a))) with (name ++ 0 :: value)
    by (simpl; rewrite <- Ha; apply slice_bytes_frame; [reflexivity | congruence]).
  rewrite splitN_first_nul by exact Hname. simpl nth_error. cbv iota.
  unfold array_prefix.
  replace ((0 <=? OutputSize h + sizeOfOutHeader) && (OutputSize h + sizeOfOutHeader <=? outputHeaderSize))
    with true by (symmetry; rewrite andb_true_iff, !Z.leb_le; unfold sizeOfOutHeader in *; lia).
  simpl. split; [reflexivity|].
  assert (Hr : slice_bytes
                 (set_outBuf (set_outputBuf (set_filenames (set_arg r a) (Some [name]))
                    (mkSlice AOutBuf 0 (OutputSize h + sizeOfOutHeader) outputHeaderSize))
                    (list_write (outBuf r) 0
                       (repeat 0 (Z.to_nat (Z.min (OutputSize h + sizeOfOutHeader) outputHeaderSize)))))
                 a = name ++ 0 :: value)
    by (rewrite <- Ha; apply slice_bytes_frame; [reflexivity | congruence]).
  simpl in Hr. rewrite Hr. split; [reflexivity|].
  unfold setxattr_value. rewrite splitN_first_nul by exact Hname. reflexivity.
Qed.

(** Witness of C5: the spec's scenario S2, [arg = "user.foo\0\x01\x02\x03\x04"]. *)
Lemma parse_setxattr_name_value_witness :
  match parse opcodeTable false (receive frame_setxattr) with
  | Some r' =>
      filenames r' = Some [[117; 115; 101; 114; 46; 102; 111; 111]] /\
      slice_bytes r' (arg r') = [117; 115; 101; 114; 46; 102; 111; 111] ++ 0 :: [1; 2; 3; 4] /\
      setxattr_value (slice_bytes r' (arg r')) = [1; 2; 3; 4]
  | None => False
  end.
Proof.
  exact (parse_setxattr_name_value opcodeTable false (receive frame_setxattr)
           (mkHandler 48 0 1 false) [117; 115; 101; 114; 46; 102; 111; 111] [1; 2; 3; 4]
           ltac:(discharge) ltac:(discharge) ltac:(discharge) ltac:(discharge)
           ltac:(discharge) ltac:(discharge) ltac:(discharge) ltac:(discharge)
           ltac:(discharge) ltac:(discharge) ltac:(discharge) ltac:(discharge)).
Defined.

(** ** Small and large inputs *)

(** C6 (as amended): [setInput] copies a frame of fewer than 128 bytes
    into the inline array, points [inputBuf] at the copy and returns false,
    leaving the pool buffer alone; a frame of 128 bytes or more is taken
    over: [inputBuf] is the caller's slice, [bufferPoolInputBuf] that slice
    extended to its capacity, and the result is true. *)
Theorem setInput_paths : forall r input,
  0 <= s_len input -> length (slice_bytes r input) = Z.to_nat (s_len input) ->
  length (smallInputBuf r) = Z.to_nat smallInputSize ->
  match setInput r input with
  | (r', owned) =>
      (s_len input < smallInputSize ->
         owned = false /\ inputBuf r' = mkSlice ASmallIn 0 (s_len input) smallInputSize /\
         slice_bytes r' (inputBuf r') = slice_bytes r input /\
         bufferPoolInputBuf r' = bufferPoolInputBuf r) /\
      (smallInputSize <= s_len input ->
         owned = true /\ inputBuf r' = input /\
         bufferPoolInputBuf r' = mkSlice (s_arr input) (s_off input) (s_cap input) (s_cap input) /\
         smallInputBuf r' = smallInputBuf r)
  end.
Proof.
  intros r input Hn Hl Hs. unfold setInput.
  destruct (s_len input <? smallInputSize) eqn:E.
  - apply Z.ltb_lt in E. split; [|intros; lia]. intros _.
    repeat split. unfold slice_bytes at 1.
    cbn [set_inputBuf set_smallInputBuf inputBuf smallInputBuf s_len s_off s_arr array_bytes].
    rewrite (firstn_all2 (n := Z.to_nat smallInputSize) (slice_bytes r input))
      by (unfold smallInputSize in *; lia).
    change (Z.to_nat 0) with 0%nat. cbn [skipn].
    rewrite <- Hl. apply (list_write_read_same (smallInputBuf r) 0 (slice_bytes r input)).
    unfold smallInputSize in *; lia.
  - apply Z.ltb_ge in E. split; [intros; lia|]. intros _. repeat split.
Qed.

(** Witness of C6: a 56-byte GETATTR frame. *)
Lemma setInput_paths_witness :
  match setInput new_request (heap_slice 1 frame_getattr) with
  | (r', owned) =>
      (56 < smallInputSize ->
         owned = false /\ inputBuf r' = mkSlice ASmallIn 0 56 smallInputSize /\
         slice_bytes r' (inputBuf r') = slice_bytes new_request (heap_slice 1 frame_getattr) /\
         bufferPoolInputBuf r' = bufferPoolInputBuf new_request) /\
      (smallInputSize <= 56 ->
         owned = true /\ inputBuf r' = heap_slice 1 frame_getattr /\
         bufferPoolInputBuf r' = mkSlice (AHeap 1 frame_getattr) 0 56 56 /\
         smallInputBuf r' = smallInputBuf new_request)
  end.
Proof.
  exact (setInput_paths new_request (heap_slice 1 frame_getattr)
           ltac:(discharge) ltac:(discharge) ltac:(discharge)).
Defined.

(** C6 as stated fails: a 128-byte frame fits the 128-byte inline array,
    yet [setInput] takes ownership of it ([len(input) < 128] is false). *)
Lemma setInput_paths_counterexample :
  length (smallInputBuf new_request) = 128%nat /\
  s_len (heap_slice 1 (repeat 0 128)) = 128 /\
  snd (setInput new_request (heap_slice 1 (repeat 0 128))) = true.
Proof. vm_compute. repeat split. Qed.

(** ** INIT and the input length check *)

(** C7 (code defect): [parse] compares the declared INIT size with
    [len(r.arg)], which is still nil on a new request, so it always adopts
    [len(r.inputBuf)]: for a 112-byte INIT frame and a declared size of 104
    the declared size is not kept and [arg] ends up empty, not the 8 bytes
    past the record. *)
Theorem parse_init_declared_size_not_kept :
  s_len (inputBuf (receive (frame_init 72))) = 112 /\
  opcodeTable _OP_INIT = Some (mkHandler 104 64 0 false) /\
  slice_from (inputBuf (receive (frame_init 72))) 104 =
    Some (mkSlice ASmallIn 104 8 24) /\
  match parse opcodeTable false (receive (frame_init 72)) with
  | Some r' => status r' = OK /\ arg r' = mkSlice ASmallIn 112 0 16
  | None => False
  end.
Proof. vm_compute. repeat split. Qed.



(** ** Round trip under an identity handler *)

(** C9 (as amended): for a frame with a recognized opcode that [parse]
    accepts with status OK, a handler that keeps status OK and attaches no
    payload gets a reply whose unique is the inbound unique, whose status
    is 0, and whose length is the out-header size plus the registry's
    output size (the out-header size alone for a GETXATTR or LISTXATTR
    data fetch, [Size] nonzero). *)
Theorem identity_handler_reply : forall gh sw r op h uq sz r1,
  in_opcode r = Some op -> gh op = Some h -> in_unique r = Some uq ->
  getxattr_in_size r = Some sz ->
  bytes_ok (array_bytes r (s_arr (inputBuf r))) = true ->
  is_outBuf (s_arr (inputBuf r)) = false ->
  length (outBuf r) = Z.to_nat outputHeaderSize ->
  0 <= OutputSize h -> flatDataSize r = 0 ->
  parse gh sw r = Some r1 -> status r1 = OK ->
  match roundtrip gh sw r with
  | Some r' =>
      out_unique r' = uq /\ out_status r' = 0 /\
      out_length r' = sizeOfOutHeader +
        (if ((op =? _OP_GETXATTR) || (op =? _OP_LISTXATTR)) && negb (sz =? 0) then 0
         else OutputSize h)
  | None => False
  end.
Proof.
  intros gh sw r op h uq sz r1 Hop Hh Huq Hsz Hb Hno Hob Ho Hfd Hp Hst.
  pose proof (parse_recognized gh sw r op h r1 Hop Hh Hp) as P. cbv zeta in P.
  destruct P as [[_ E] | (_ & _ & I1 & O1 & Ob & F1 & D1 & S1 & B1 & _)].
  { subst r1. discriminate Hst. }
  unfold roundtrip. rewrite Hp.
  assert (Hfd1 : flatDataSize r1 = 0) by (unfold flatDataSize in *; rewrite D1, F1; exact Hfd).
  rewrite Hfd1.
  assert (Hop1 : in_opcode r1 = Some op) by (unfold in_opcode; rewrite in_field_frame with (r := r); auto).
  assert (Huq1 : in_unique r1 = Some uq) by (unfold in_unique; rewrite in_field_frame with (r := r); auto).
  assert (Hsz1 : getxattr_in_size r1 = Some sz)
    by (unfold getxattr_in_size; rewrite in_field_frame with (r := r); auto).
  pose proof (serialize_dataLength_eq gh r1 op sz Hop1 Hsz1) as Hdl.
  rewrite Hst in Hdl. unfold registry_out in Hdl. rewrite Hh in Hdl.
  change (OK <? OK) with false in Hdl. cbv iota in Hdl.
  set (dl := if ((op =? _OP_GETXATTR) || (op =? _OP_LISTXATTR)) && negb (sz =? 0) then 0
             else OutputSize h) in *.
  assert (Hdl0 : 0 <= dl <= OutputSize h) by (unfold dl; destruct (_ && _); lia).
  unfold sizeOfOutHeader, outputHeaderSize in Ob.
  assert (C1 : 0 < s_len (outputBuf r1)) by (rewrite O1; simpl; unfold sizeOfOutHeader; lia).
  assert (C2 : 0 <= s_off (outputBuf r1)) by (rewrite O1; simpl; unfold sizeOfOutHeader; lia).
  assert (C3 : (Z.to_nat (s_off (outputBuf r1)) + 16 <=
                length (array_bytes r1 (s_arr (outputBuf r1))))%nat)
    by (rewrite O1; simpl; rewrite B1, Hob; simpl; lia).
  assert (C4 : 0 <= dl + sizeOfOutHeader <= s_cap (outputBuf r1))
    by (rewrite O1; simpl; unfold sizeOfOutHeader, outputHeaderSize; lia).
  destruct (serializeHeader_spec gh 0 r1 dl uq Hdl Huq1 C1 C2 C3 C4)
    as (r' & E & U & St & L & _).
  rewrite E. rewrite Hst in St.
  rewrite (in_unique_range r1 uq Huq1) in U
    by (rewrite I1; unfold array_bytes; destruct (s_arr (inputBuf r)); simpl in *;
        congruence).
  repeat split; auto.
  rewrite L. unfold sizeOfOutHeader. rewrite Z.add_0_r. apply Z.mod_small. lia.
Qed.

(** Witness of C9: the spec's scenario S1, GETATTR with unique 7. *)
Lemma identity_handler_reply_witness :
  match roundtrip opcodeTable false (receive frame_getattr) with
  | Some r' => out_unique r' = 7 /\ out_status r' = 0 /\ out_length r' = sizeOfOutHeader + 104
  | None => False
  end.
Proof.
  exact (identity_handler_reply opcodeTable false (receive frame_getattr) _OP_GETATTR
           (mkHandler 56 104 0 false) 7 0 req_getattr
           ltac:(discharge) ltac:(discharge) ltac:(discharge) ltac:(discharge)
           ltac:(discharge) ltac:(discharge) ltac:(discharge) ltac:(discharge)
           ltac:(discharge) ltac:(discharge) ltac:(discharge)).
Defined.

(** C9 as stated fails: the GETATTR frame of scenario S1 is accepted with
    status OK, and the identity reply's length is 120, not the out-header
    size 16. *)
Lemma identity_handler_reply_counterexample :
  status req_getattr = OK /\
  match roundtrip opcodeTable false (receive frame_getattr) with
  | Some r' => out_unique r' = 7 /\ out_length r' = 120 /\ out_length r' <> sizeOfOutHeader
  | None => False
  end.
Proof. vm_compute. repeat split. discriminate. Qed.

(** ** Recycling *)

(** C10: [clear] sets [inputBuf], [outputBuf], [arg], [filenames],
    [flatData], [fdData] and [readResult] to nil, [status] to OK and
    [startTime] to the zero time, and keeps every other field: the pool
    buffers, [cancel], [interrupted], [inflightIndex] and the inline
    arrays. *)
Theorem clear_fields : forall r,
  clear r =
  {| inflightIndex := inflightIndex r; cancel := cancel r; interrupted := interrupted r;
     inputBuf := nil_slice; outputBuf := nil_slice; arg := nil_slice;
     filenames := None; status := OK; flatData := nil_slice;
     fdData := None; readResult := None; startTime := 0;
     bufferPoolInputBuf := bufferPoolInputBuf r;
     bufferPoolOutputBuf := bufferPoolOutputBuf r;
     outBuf := outBuf r; smallInputBuf := smallInputBuf r |}.
Proof. intros r. reflexivity. Qed.

(** * Further properties of request.go *)

(** ** Splitting and joining *)

Lemma index0_spec : forall s m,
  index0 s = Some m ->
  firstn m s ++ 0 :: skipn (S m) s = s /\ count0 s = S (count0 (skipn (S m) s)).
Proof.
  induction s as [|b t IH]; intros m H; simpl in H; [discriminate|].
  destruct (b =? 0) eqn:Eb.
  - injection H as <-. apply Z.eqb_eq in Eb. subst b. simpl. auto.
  - destruct (index0 t) as [k|] eqn:Ek; simpl in H; [|discriminate].
    injection H as <-. destruct (IH k eq_refl) as [H1 H2]. simpl. rewrite Eb.
    split; [f_equal; exact H1 | exact H2].
Qed.

Lemma index0_none : forall s, index0 s = None -> count0 s = O.
Proof.
  induction s as [|b t IH]; intros H; simpl in *; [reflexivity|].
  destruct (b =? 0); [discriminate|]. destruct (index0 t); [discriminate|]. auto.
Qed.

Lemma count0_le : forall s, (count0 s <= length s)%nat.
Proof. induction s as [|b t IH]; simpl; [lia|]. destruct (b =? 0); lia. Qed.

Lemma split_loop_length : forall k s, length (split_loop k s) = S (Nat.min (count0 s) k).
Proof.
  induction k as [|k IH]; intros s; [simpl; lia|]. cbn [split_loop].
  destruct (index0 s) as [m|] eqn:E.
  - destruct (index0_spec s m E) as [_ H2]. cbn [length]. rewrite IH, H2. lia.
  - rewrite (index0_none s E). reflexivity.
Qed.

Lemma split_loop_join : forall k s, join0 (split_loop k s) = s.
Proof.
  induction k as [|k IH]; intros s; [reflexivity|]. cbn [split_loop].
  destruct (index0 s) as [m|] eqn:E; [|reflexivity].
  destruct (index0_spec s m E) as [H1 _].
  cbn [join0]. destruct (split_loop k (skipn (S m) s)) as [|x t] eqn:Es.
  - pose proof (split_loop_length k (skipn (S m) s)) as L. rewrite Es in L. discriminate.
  - rewrite <- Es, IH. exact H1.
Qed.

Lemma splitN_pos : forall s n, 0 < n ->
  splitN s n = split_loop (Z.to_nat (Z.min n (Z.of_nat (length s) + 1) - 1)) s.
Proof.
  intros s n H. unfold splitN.
  replace (n =? 0) with false by (symmetry; apply Z.eqb_neq; lia).
  replace (n <? 0) with false by (symmetry; apply Z.ltb_ge; lia). reflexivity.
Qed.

Lemma splitN_length : forall s n, 0 < n ->
  Z.of_nat (length (splitN s n)) = Z.min (Z.of_nat (count0 s) + 1) n.
Proof.
  intros s n H. rewrite splitN_pos, split_loop_length by exact H.
  pose proof (count0_le s). lia.
Qed.

Lemma splitN_join : forall s n, 0 < n -> join0 (splitN s n) = s.
Proof. intros s n H. rewrite splitN_pos by exact H. apply split_loop_join. Qed.

(** ** The parser, step by step *)

Lemma parse_steps : forall gh sw r op h r1,
  in_opcode r = Some op -> gh op = Some h -> parse gh sw r = Some r1 ->
  let inSz0 := if (op =? _OP_RENAME) && sw then sizeof_RenameIn else InputSize h in
  let inSz := if (op =? _OP_INIT) && (s_len (arg r) <? inSz0) then s_len (inputBuf r) else inSz0 in
  (s_len (inputBuf r) < inSz /\ r1 = set_status r EIO) \/
  (inSz <= s_len (inputBuf r) /\
   exists a r2,
     slice_from (inputBuf r) (if 0 <? InputSize h then inSz else sizeof_InHeader) = Some a /\
     parse_filenames op (FileNames h) (set_arg r a) = Some r2 /\
     0 <= OutputSize h + sizeOfOutHeader <= outputHeaderSize /\
     r1 = set_outBuf
            (set_outputBuf r2 (mkSlice AOutBuf 0 (OutputSize h + sizeOfOutHeader) outputHeaderSize))
            (list_write (outBuf r2) 0 (repeat 0 (Z.to_nat (OutputSize h + sizeOfOutHeader))))).
Proof.
  intros gh sw r op h r1 Hop Hh Hp inSz0 inSz.
  unfold parse in Hp. rewrite Hop, Hh in Hp. fold inSz0 in Hp. fold inSz in Hp.
  destruct (s_len (inputBuf r) <? inSz) eqn:Elt.
  - left. apply Z.ltb_lt in Elt. injection Hp as <-. auto.
  - right. apply Z.ltb_ge in Elt. split; [exact Elt|].
    destruct (if 0 <? InputSize h then slice_from (inputBuf r) inSz
              else slice_from (inputBuf r) sizeof_InHeader) as [a|] eqn:Ea; [|discriminate].
    destruct (parse_filenames op (FileNames h) (set_arg r a)) as [r2|] eqn:Ef; [|discriminate].
    unfold array_prefix in Hp.
    destruct ((0 <=? OutputSize h + sizeOfOutHeader) && (OutputSize h + sizeOfOutHeader <=? outputHeaderSize))
      eqn:Eo; [|discriminate].
    rewrite andb_true_iff, !Z.leb_le in Eo.
    simpl in Hp. injection Hp as <-.
    exists a, r2. repeat split; try lia.
    + destruct (0 <? InputSize h); exact Ea.
    + exact Ef.
    + rewrite Z.min_l by lia. reflexivity.
Qed.

Lemma slice_bytes_to : forall r s hi s',
  slice_to s hi = Some s' -> hi <= s_len s ->
  slice_bytes r s' = firstn (Z.to_nat hi) (slice_bytes r s).
Proof.
  unfold slice_to, reslice, slice_bytes. intros r s hi s' H Hh.
  destruct ((0 <=? 0) && (0 <=? hi) && (hi <=? s_cap s)) eqn:E; [|discriminate].
  injection H as <-. rewrite !andb_true_iff, !Z.leb_le in E. simpl.
  rewrite Z.add_0_r, firstn_firstn. f_equal. lia.
Qed.

(** The filename step of [parse] for an opcode taking names from a
    NUL-terminated argument. *)
Lemma parse_filenames_names : forall op c r r',
  1 <= c -> (c = 1 -> op <> _OP_SETXATTR) -> parse_filenames op c r = Some r' ->
  0 < s_len (arg r) /\
  exists names, filenames r' = Some names /\
    join0 names = firstn (Z.to_nat (s_len (arg r) - 1)) (slice_bytes r (arg r)) /\
    Z.of_nat (length names) = Z.min (Z.of_nat (count0 (join0 names)) + 1) c /\
    status r' = (if Z.of_nat (count0 (join0 names)) + 1 <? c then EIO else status r).
Proof.
  intros op c r r' Hc Hs H. unfold parse_filenames in H.
  replace (0 <? c) with true in H by (symmetry; apply Z.ltb_lt; lia).
  replace ((c =? 1) && (op =? _OP_SETXATTR)) with false in H
    by (symmetry; apply andb_false_iff; destruct (Z.eqb_spec c 1) as [E|E];
        [right; apply Z.eqb_neq; auto | left; reflexivity]).
  destruct (slice_to (arg r) (s_len (arg r) - 1)) as [a|] eqn:Ea;
    [|destruct (c =? 1); discriminate].
  assert (Ha : 0 <= s_len (arg r) - 1).
  { unfold slice_to, reslice in Ea. destruct ((0 <=? 0) && _ && _) eqn:E; [|discriminate].
    rewrite !andb_true_iff, !Z.leb_le in E. lia. }
  rewrite (slice_bytes_to r (arg r) _ a Ea) in H by lia.
  set (B := firstn (Z.to_nat (s_len (arg r) - 1)) (slice_bytes r (arg r))) in *.
  split; [lia|].
  destruct (Z.eqb_spec c 1) as [E1|E1].
  - injection H as <-. exists [B]. simpl. repeat split; [lia|].
    subst c. replace (Z.of_nat (count0 B) + 1 <? 1) with false
      by (symmetry; apply Z.ltb_ge; lia). reflexivity.
  - exists (splitN B c). rewrite splitN_join by lia.
    pose proof (splitN_length B c ltac:(lia)) as L.
    destruct (Z.of_nat (length (splitN B c)) =? c) eqn:Ec; injection H as <-; simpl;
      repeat split; auto.
    + apply Z.eqb_eq in Ec. replace (Z.of_nat (count0 B) + 1 <? c) with false
        by (symmetry; apply Z.ltb_ge; lia). reflexivity.
    + apply Z.eqb_neq in Ec. replace (Z.of_nat (count0 B) + 1 <? c) with true
        by (symmetry; apply Z.ltb_lt; lia). reflexivity.
Qed.

Lemma slice_from_arr : forall s lo s', slice_from s lo = Some s' -> s_arr s' = s_arr s.
Proof.
  unfold slice_from, reslice. intros s lo s' H.
  destruct (_ && _ && _); [now injection H as <- | discriminate].
Qed.

(** ** Extra properties of the parser *)

(** Filename arguments: for an opcode with one or more file names (other
    than SETXATTR's single name), a successful [parse] that passes the
    length check has a non-empty [arg]; its names joined with NUL give back
    [arg] without its last byte; there are min(NULs + 1, count) of them,
    and the status becomes EIO exactly when fewer than count - 1 NULs were
    found. *)
Theorem parse_names_split : forall gh sw r op h r1,
  in_opcode r = Some op -> gh op = Some h ->
  1 <= FileNames h -> (FileNames h = 1 -> op <> _OP_SETXATTR) ->
  status r = OK -> is_outBuf (s_arr (inputBuf r)) = false ->
  parse gh sw r = Some r1 ->
  r1 = set_status r EIO \/
  (0 < s_len (arg r1) /\
   exists names, filenames r1 = Some names /\
     join0 names = firstn (Z.to_nat (s_len (arg r1) - 1)) (slice_bytes r1 (arg r1)) /\
     Z.of_nat (length names) = Z.min (Z.of_nat (count0 (join0 names)) + 1) (FileNames h) /\
     status r1 = (if Z.of_nat (count0 (join0 names)) + 1 <? FileNames h then EIO else OK)).
Proof.
  intros gh sw r op h r1 Hop Hh Hc Hs Hst Hno Hp.
  destruct (parse_steps gh sw r op h r1 Hop Hh Hp) as [[_ E] | [_ (a & r2 & Ea & Ef & _ & E)]];
    [left; exact E | right].
  pose proof (parse_filenames_frame _ _ _ _ Ef) as (I2 & O2 & A2 & _ & _ & S2 & _).
  destruct (parse_filenames_names op (FileNames h) (set_arg r a) r2 Hc Hs Ef)
    as [Hl (names & F & J & L & St)].
  simpl in A2, S2, Hl, J, St. subst r1. simpl. rewrite A2.
  split; [exact Hl|]. exists names. rewrite Hst in St. repeat split; auto.
  rewrite J. f_equal. apply slice_bytes_frame; [simpl; congruence|].
  rewrite (slice_from_arr _ _ _ Ea). exact Hno.
Qed.

(** Witness: a RENAME frame whose argument is "a", NUL, "b", NUL. *)
Lemma parse_names_split_witness :
  parsed (receive frame_rename) = set_status (receive frame_rename) EIO \/
  (0 < s_len (arg (parsed (receive frame_rename))) /\
   exists names, filenames (parsed (receive frame_rename)) = Some names /\
     join0 names = firstn (Z.to_nat (s_len (arg (parsed (receive frame_rename))) - 1))
                     (slice_bytes (parsed (receive frame_rename)) (arg (parsed (receive frame_rename)))) /\
     Z.of_nat (length names) = Z.min (Z.of_nat (count0 (join0 names)) + 1) 2 /\
     status (parsed (receive frame_rename)) =
       (if Z.of_nat (count0 (join0 names)) + 1 <? 2 then EIO else OK)).
Proof.
  exact (parse_names_split opcodeTable false (receive frame_rename) _OP_RENAME
           (mkHandler 48 0 2 false) (parsed (receive frame_rename))
           ltac:(discharge) ltac:(discharge) ltac:(discharge) ltac:(vm_compute; lia)
           ltac:(discharge) ltac:(discharge) ltac:(discharge)).
Defined.

(** [parse] never changes the input frame, the flat data or the fd data,
    and the only statuses it sets are ENOSYS and EIO. *)
Theorem parse_keeps_input : forall gh sw r r1,
  is_outBuf (s_arr (inputBuf r)) = false -> parse gh sw r = Some r1 ->
  (status r1 = status r \/ status r1 = ENOSYS \/ status r1 = EIO) /\
  inputBuf r1 = inputBuf r /\ slice_bytes r1 (inputBuf r1) = slice_bytes r (inputBuf r) /\
  flatData r1 = flatData r /\ fdData r1 = fdData r.
Proof.
  intros gh sw r r1 Hno Hp.
  destruct (in_opcode r) as [op|] eqn:Hop; [|unfold parse in Hp; rewrite Hop in Hp; discriminate].
  destruct (gh op) as [h|] eqn:Hh.
  - destruct (parse_steps gh sw r op h r1 Hop Hh Hp) as [[_ E] | [_ (a & r2 & Ea & Ef & _ & E)]];
      subst r1.
    + simpl. auto 10.
    + pose proof (parse_filenames_frame _ _ _ _ Ef) as (I2 & _ & _ & F2 & D2 & S2 & _ & St2).
      simpl in *. rewrite I2, F2, D2.
      repeat split; auto.
      * destruct St2 as [St2|St2]; rewrite St2; auto.
      * apply slice_bytes_frame; simpl; congruence.
  - unfold parse in Hp. rewrite Hop, Hh in Hp. injection Hp as <-. simpl. auto 10.
Qed.

(** Witness: the GETATTR frame of a new request. *)
Lemma parse_keeps_input_witness :
  (status req_getattr = status (receive frame_getattr) \/ status req_getattr = ENOSYS \/
   status req_getattr = EIO) /\
  inputBuf req_getattr = inputBuf (receive frame_getattr) /\
  slice_bytes req_getattr (inputBuf req_getattr) =
    slice_bytes (receive frame_getattr) (inputBuf (receive frame_getattr)) /\
  flatData req_getattr = flatData (receive frame_getattr) /\
  fdData req_getattr = fdData (receive frame_getattr).
Proof.
  exact (parse_keeps_input opcodeTable false (receive frame_getattr) req_getattr
           ltac:(discharge) ltac:(discharge)).
Defined.

(** For an opcode with a registry entry, when [parse] gets past the
    length check, [outputBuf] is [outBuf[:OutputSize + sizeOfOutHeader]]
    with every byte zero, and the rest of [outBuf] is left as it was. *)
Theorem parse_zeroes_reply_buffer : forall gh sw r op h r1,
  in_opcode r = Some op -> gh op = Some h ->
  length (outBuf r) = Z.to_nat outputHeaderSize ->
  parse gh sw r = Some r1 ->
  r1 = set_status r EIO \/
  (s_arr (outputBuf r1) = AOutBuf /\ s_off (outputBuf r1) = 0 /\
   s_len (outputBuf r1) = OutputSize h + sizeOfOutHeader /\
   slice_bytes r1 (outputBuf r1) = repeat 0 (Z.to_nat (OutputSize h + sizeOfOutHeader)) /\
   skipn (Z.to_nat (OutputSize h + sizeOfOutHeader)) (outBuf r1) =
     skipn (Z.to_nat (OutputSize h + sizeOfOutHeader)) (outBuf r)).
Proof.
  intros gh sw r op h r1 Hop Hh Hl Hp.
  destruct (parse_steps gh sw r op h r1 Hop Hh Hp) as [[_ E] | [_ (a & r2 & Ea & Ef & Hb & E)]];
    [left; exact E | right].
  pose proof (parse_filenames_frame _ _ _ _ Ef) as (_ & _ & _ & _ & _ & _ & B2 & _).
  simpl in B2. subst r1. cbn [set_outBuf set_outputBuf outputBuf outBuf]. rewrite B2.
  set (n := Z.to_nat (OutputSize h + sizeOfOutHeader)).
  assert (Hn : (n <= length (outBuf r))%nat)
    by (unfold n; rewrite Hl; unfold outputHeaderSize in *; lia).
  split; [reflexivity|]. split; [reflexivity|]. split; [reflexivity|]. split.
  - unfold slice_bytes. cbn [s_arr s_off s_len array_bytes outBuf].
    change (Z.to_nat 0) with 0%nat. rewrite skipn_O. fold n.
    rewrite <- (repeat_length 0 n) at 1.
    apply (list_write_read_same (outBuf r) 0 (repeat 0 n)). rewrite repeat_length. lia.
  - unfold list_write. rewrite (firstn_all2 (n := length (outBuf r)))
      by (rewrite !length_app, repeat_length, length_skipn; simpl; lia).
    simpl. rewrite repeat_length, skipn_app, skipn_all2 by (rewrite repeat_length; lia).
    rewrite repeat_length, Nat.sub_diag. reflexivity.
Qed.

(** Witness: the GETATTR frame of a new request. *)
Lemma parse_zeroes_reply_buffer_witness :
  req_getattr = set_status (receive frame_getattr) EIO \/
  (s_arr (outputBuf req_getattr) = AOutBuf /\ s_off (outputBuf req_getattr) = 0 /\
   s_len (outputBuf req_getattr) = 104 + sizeOfOutHeader /\
   slice_bytes req_getattr (outputBuf req_getattr) = repeat 0 (Z.to_nat (104 + sizeOfOutHeader)) /\
   skipn (Z.to_nat (104 + sizeOfOutHeader)) (outBuf req_getattr) =
     skipn (Z.to_nat (104 + sizeOfOutHeader)) (outBuf (receive frame_getattr))).
Proof.
  exact (parse_zeroes_reply_buffer opcodeTable false (receive frame_getattr) _OP_GETATTR
           (mkHandler 56 104 0 false) req_getattr
           ltac:(discharge) ltac:(discharge) ltac:(discharge) ltac:(discharge)).
Defined.

(** ** Composition of parse and serializeHeader *)

Lemma in_field_exists : forall r r1 off off' n n' v,
  in_field r off n = Some v -> inputBuf r1 = inputBuf r ->
  exists v', in_field r1 off' n' = Some v'.
Proof.
  unfold in_field. intros r r1 off off' n n' v H Hi. rewrite Hi.
  destruct (0 <? s_len (inputBuf r)); [eauto | discriminate].
Qed.

(** On a request with no reply buffer yet (a new or cleared one),
    serializing after [parse] panics exactly when [parse] returned early:
    with ENOSYS for an unknown opcode or with EIO for a short input. *)
Theorem roundtrip_panics_iff_early_return : forall gh sw r op r1,
  in_opcode r = Some op -> 0 <= registry_out gh op ->
  is_outBuf (s_arr (inputBuf r)) = false ->
  s_len (outputBuf r) = 0 -> length (outBuf r) = Z.to_nat outputHeaderSize ->
  parse gh sw r = Some r1 ->
  (roundtrip gh sw r = None <-> r1 = set_status r ENOSYS \/ r1 = set_status r EIO).
Proof.
  intros gh sw r op r1 Hop Hout Hno Hlen Hl Hp.
  unfold roundtrip. rewrite Hp. split.
  - intros Hn. destruct (gh op) as [h|] eqn:Hh.
    + destruct (parse_steps gh sw r op h r1 Hop Hh Hp)
        as [[_ E] | [_ (a & r2 & Ea & Ef & Hb & E)]]; [right; exact E|].
      exfalso.
      pose proof (parse_filenames_frame _ _ _ _ Ef) as (I2 & _ & _ & _ & _ & S2 & B2 & _).
      simpl in I2, S2, B2.
      unfold registry_out in Hout. rewrite Hh in Hout.
      assert (I1 : inputBuf r1 = inputBuf r) by (subst r1; exact I2).
      assert (S1 : smallInputBuf r1 = smallInputBuf r) by (subst r1; exact S2).
      assert (Hop1 : in_opcode r1 = Some op)
        by (unfold in_opcode; rewrite (in_field_frame r r1); auto).
      destruct (in_field_exists r r1 4 40 4 4 op Hop I1) as [sz Hsz].
      destruct (in_field_exists r r1 4 8 4 8 op Hop I1) as [uq Huq].
      pose proof (serialize_dataLength_eq gh r1 op sz Hop1 Hsz) as Hdl.
      unfold registry_out in Hdl. rewrite Hh in Hdl.
      set (dl := if _ && _ then 0 else if OK <? status r1 then 0 else OutputSize h) in Hdl.
      assert (Hd : 0 <= dl <= OutputSize h).
      { unfold dl. destruct (((op =? _OP_GETXATTR) || (op =? _OP_LISTXATTR)) && negb (sz =? 0));
          [lia|]. destruct (OK <? status r1); lia. }
      destruct (serializeHeader_spec gh (flatDataSize r1) r1 dl uq Hdl Huq)
        as (r' & E' & _); subst r1; cbn [set_outBuf set_outputBuf outputBuf s_len s_off s_cap s_arr];
        unfold sizeOfOutHeader, outputHeaderSize in *; try lia.
      * cbn [array_bytes outBuf set_outBuf]. rewrite length_list_write, B2, Hl. simpl. lia.
      * unfold sizeOfOutHeader in E'. rewrite E' in Hn. discriminate.
    + unfold parse in Hp. rewrite Hop, Hh in Hp. injection Hp as <-. left. reflexivity.
  - intros [E|E]; subst r1; unfold serializeHeader;
      (destruct (serialize_dataLength _ _) as [dl|]; [|reflexivity]);
      cbn [set_status outputBuf]; rewrite Hlen; reflexivity.
Qed.

(** Witness: the unknown-opcode frame on a new request. *)
Lemma roundtrip_panics_iff_early_return_witness :
  roundtrip opcodeTable false (receive frame_unknown) = None <->
  set_status (receive frame_unknown) ENOSYS = set_status (receive frame_unknown) ENOSYS \/
  set_status (receive frame_unknown) ENOSYS = set_status (receive frame_unknown) EIO.
Proof.
  exact (roundtrip_panics_iff_early_return opcodeTable false (receive frame_unknown) 65535
           (set_status (receive frame_unknown) ENOSYS)
           ltac:(discharge) ltac:(discharge) ltac:(discharge) ltac:(discharge)
           ltac:(discharge) ltac:(discharge)).
Defined.

(** On a request recycled with [clear] and refilled with [setInput], an
    INIT frame is parsed with the whole input as its input record,
    whatever its length: the status stays OK and [arg] is empty. *)
Theorem parse_init_recycled : forall gh sw r0 input h,
  gh _OP_INIT = Some h -> in_opcode (fst (setInput (clear r0) input)) = Some _OP_INIT ->
  0 < InputSize h -> FileNames h = 0 ->
  0 <= OutputSize h -> OutputSize h + sizeOfOutHeader <= outputHeaderSize ->
  s_len input <= s_cap input ->
  match parse gh sw (fst (setInput (clear r0) input)) with
  | Some r1 => status r1 = OK /\ s_len (arg r1) = 0
  | None => False
  end.
Proof.
  intros gh sw r0 input h Hh Hop Hin Hf Ho1 Ho2 Hcap.
  set (r := fst (setInput (clear r0) input)) in *.
  assert (Ha : arg r = nil_slice /\ status r = OK /\ s_len (inputBuf r) <= s_cap (inputBuf r)).
  { unfold r, setInput. destruct (s_len input <? smallInputSize) eqn:E; simpl; auto.
    apply Z.ltb_lt in E. unfold smallInputSize in *. repeat split; lia. }
  destruct Ha as (Ha & Hst & Hc).
  assert (Hpos : 0 < s_len (inputBuf r)).
  { unfold in_opcode, in_field in Hop. destruct (0 <? s_len (inputBuf r)) eqn:E; [|discriminate].
    now apply Z.ltb_lt. }
  unfold parse. rewrite Hop, Hh. cbv zeta.
  change ((_OP_INIT =? _OP_RENAME) && sw) with false. cbv iota.
  rewrite Ha. change (s_len nil_slice) with 0.
  replace ((_OP_INIT =? _OP_INIT) && (0 <? InputSize h)) with true
    by (symmetry; apply Z.ltb_lt in Hin; rewrite Hin; reflexivity).
  cbv iota. rewrite Z.ltb_irrefl.
  replace (0 <? InputSize h) with true by (symmetry; now apply Z.ltb_lt).
  destruct (slice_from_some (inputBuf r) (s_len (inputBuf r))) as [a Ea]; [lia | lia |].
  rewrite Ea. unfold parse_filenames. rewrite Hf. change (0 <? 0) with false. cbv iota.
  unfold array_prefix.
  replace ((0 <=? OutputSize h + sizeOfOutHeader) && (OutputSize h + sizeOfOutHeader <=? outputHeaderSize))
    with true by (symmetry; rewrite andb_true_iff, !Z.leb_le; unfold sizeOfOutHeader in *; lia).
  simpl. split; [exact Hst|].
  unfold slice_from, reslice in Ea.
  destruct (_ && _ && _); [injection Ea as <-; simpl; lia | discriminate].
Qed.

(** Witness: a 112-byte INIT frame on a cleared new request. *)
Lemma parse_init_recycled_witness :
  match parse opcodeTable false (fst (setInput (clear new_request) (heap_slice 1 (frame_init 72)))) with
  | Some r1 => status r1 = OK /\ s_len (arg r1) = 0
  | None => False
  end.
Proof.
  exact (parse_init_recycled opcodeTable false new_request (heap_slice 1 (frame_init 72))
           (mkHandler 104 64 0 false)
           ltac:(discharge) ltac:(discharge) ltac:(discharge) ltac:(discharge)
           ltac:(discharge) ltac:(discharge) ltac:(discharge)).
Defined.

(** ** The serializer writes the header only *)

Lemma list_write_eq : forall l off bs,
  (off + length bs <= length l)%nat ->
  list_write l off bs = firstn off l ++ bs ++ skipn (off + length bs) l.
Proof.
  intros l off bs H. unfold list_write. apply firstn_all2.
  rewrite !length_app, length_firstn, length_skipn. lia.
Qed.

Lemma list_write_firstn_before : forall l off bs k,
  (off + length bs <= length l)%nat -> (k <= off)%nat ->
  firstn k (list_write l off bs) = firstn k l.
Proof.
  intros l off bs k H Hk. rewrite list_write_eq by exact H.
  rewrite firstn_app_short by (rewrite length_firstn; lia).
  rewrite firstn_firstn, Nat.min_l by lia. reflexivity.
Qed.

Lemma list_write_skipn_after : forall l off bs k,
  (off + length bs <= length l)%nat -> (off + length bs <= k)%nat ->
  skipn k (list_write l off bs) = skipn k l.
Proof.
  intros l off bs k H Hk. rewrite list_write_eq by exact H.
  rewrite app_assoc, skipn_app, skipn_all2
    by (rewrite length_app, length_firstn; lia).
  rewrite length_app, length_firstn, Nat.min_l by lia.
  rewrite skipn_skipn. simpl. f_equal. lia.
Qed.

Lemma header_writes : forall l o b8 b4 c4,
  (o + 16 <= length l)%nat -> length b8 = 8%nat -> length b4 = 4%nat -> length c4 = 4%nat ->
  let l' := list_write (list_write (list_write l (o + 8) b8) (o + 4) b4) o c4 in
  firstn o l' = firstn o l /\ skipn (o + 16) l' = skipn (o + 16) l /\ length l' = length l.
Proof.
  intros l o b8 b4 c4 H H8 H4 H4' l'. unfold l'.
  repeat split.
  - rewrite list_write_firstn_before by (rewrite ?length_list_write; lia).
    rewrite list_write_firstn_before by (rewrite ?length_list_write; lia).
    rewrite list_write_firstn_before by lia. reflexivity.
  - rewrite list_write_skipn_after by (rewrite ?length_list_write; lia).
    rewrite list_write_skipn_after by (rewrite ?length_list_write; lia).
    rewrite list_write_skipn_after by lia. reflexivity.
  - rewrite !length_list_write. reflexivity.
Qed.

Lemma write_AOutBuf : forall r off bs,
  s_arr (outputBuf r) = AOutBuf ->
  write_array r (s_arr (outputBuf r)) off bs =
    Some (set_outBuf r (list_write (outBuf r) (Z.to_nat off) bs)).
Proof. intros r off bs H. rewrite H. reflexivity. Qed.

(** [serializeHeader] writes the 16 bytes of the out-header in [outBuf]
    and nothing else: the bytes before and after it (the structured
    reply data a handler stored there) are kept, and so are the input,
    the arguments, the status and the flat data. *)
Theorem serializeHeader_writes_header_only : forall gh fds r r',
  s_arr (outputBuf r) = AOutBuf -> 0 <= s_off (outputBuf r) ->
  (Z.to_nat (s_off (outputBuf r)) + 16 <= length (outBuf r))%nat ->
  serializeHeader gh fds r = Some r' ->
  firstn (Z.to_nat (s_off (outputBuf r))) (outBuf r') =
    firstn (Z.to_nat (s_off (outputBuf r))) (outBuf r) /\
  skipn (Z.to_nat (s_off (outputBuf r)) + 16) (outBuf r') =
    skipn (Z.to_nat (s_off (outputBuf r)) + 16) (outBuf r) /\
  length (outBuf r') = length (outBuf r) /\
  inputBuf r' = inputBuf r /\ smallInputBuf r' = smallInputBuf r /\ arg r' = arg r /\
  filenames r' = filenames r /\ status r' = status r /\
  flatData r' = flatData r /\ fdData r' = fdData r.
Proof.
  intros gh fds r r' Harr Hoff Hl H. unfold serializeHeader in H.
  destruct (serialize_dataLength gh r) as [dl|]; [|discriminate].
  destruct (s_len (outputBuf r) <=? 0); [discriminate|].
  destruct (in_unique r) as [uq|]; [|discriminate].
  rewrite write_AOutBuf in H by exact Harr. cbv beta match in H.
  rewrite write_AOutBuf in H by exact Harr. cbv beta match in H.
  rewrite write_AOutBuf in H by exact Harr. cbv beta match in H.
  cbn [set_outBuf outputBuf outBuf status] in H.
  destruct (slice_to (outputBuf r) (dl + sizeOfOutHeader)); [|discriminate].
  injection H as <-.
  cbn [set_outputBuf set_outBuf outBuf inputBuf smallInputBuf arg filenames status flatData fdData].
  rewrite !Z2Nat.inj_add by lia.
  change (Z.to_nat 8) with 8%nat. change (Z.to_nat 4) with 4%nat.
  destruct (header_writes (outBuf r) (Z.to_nat (s_off (outputBuf r)))
              (le_encode 8 uq) (le_encode 4 (wrap_s32 (- status r)))
              (le_encode 4 ((sizeOfOutHeader + dl + fds) mod 2 ^ 32)))
    as (F & K & L); rewrite ?length_le_encode; auto.
  repeat split; auto.
Qed.

(** Witness: serializing the parsed GETATTR request. *)
Lemma serializeHeader_writes_header_only_witness :
  firstn 0 (outBuf (serialized req_getattr)) = firstn 0 (outBuf req_getattr) /\
  skipn 16 (outBuf (serialized req_getattr)) = skipn 16 (outBuf req_getattr) /\
  length (outBuf (serialized req_getattr)) = length (outBuf req_getattr) /\
  inputBuf (serialized req_getattr) = inputBuf req_getattr /\
  smallInputBuf (serialized req_getattr) = smallInputBuf req_getattr /\
  arg (serialized req_getattr) = arg req_getattr /\
  filenames (serialized req_getattr) = filenames req_getattr /\
  status (serialized req_getattr) = status req_getattr /\
  flatData (serialized req_getattr) = flatData req_getattr /\
  fdData (serialized req_getattr) = fdData req_getattr.
Proof.
  exact (serializeHeader_writes_header_only opcodeTable 0 req_getattr (serialized req_getattr)
           ltac:(discharge) ltac:(discharge) ltac:(discharge) ltac:(discharge)).
Defined.

(** ** The debug strings *)

Lemma array_bytes_set_flatData : forall r v a, array_bytes (set_flatData r v) a = array_bytes r a.
Proof. intros r v []; reflexivity. Qed.

Lemma array_bytes_set_arg : forall r v a, array_bytes (set_arg r v) a = array_bytes r a.
Proof. intros r v []; reflexivity. Qed.

Lemma in_field_set_flatData : forall r v off n, in_field (set_flatData r v) off n = in_field r off n.
Proof. intros. unfold in_field, read_mem. now rewrite array_bytes_set_flatData. Qed.

Lemma in_field_set_arg : forall r v off n, in_field (set_arg r v) off n = in_field r off n.
Proof. intros. unfold in_field, read_mem. now rewrite array_bytes_set_arg. Qed.

Lemma slice_bytes_set_flatData : forall r v s, slice_bytes (set_flatData r v) s = slice_bytes r s.
Proof. intros. unfold slice_bytes. now rewrite array_bytes_set_flatData. Qed.

Lemma slice_bytes_set_arg : forall r v s, slice_bytes (set_arg r v) s = slice_bytes r s.
Proof. intros. unfold slice_bytes. now rewrite array_bytes_set_arg. Qed.

Lemma in_field_none : forall r off n, in_field r off n = None <-> s_len (inputBuf r) <= 0.
Proof.
  intros. unfold in_field. destruct (0 <? s_len (inputBuf r)) eqn:E.
  - apply Z.ltb_lt in E. split; [discriminate | lia].
  - apply Z.ltb_ge in E. split; auto.
Qed.

(** [s[:k]] for the [k] the debug strings use, [min(len(s), 8)]: its bytes
    are the first ones of [s]. *)
Lemma debug_prefix : forall r s,
  0 < s_len s -> s_len s <= s_cap s ->
  exists f, slice_to s (fst (if 8 <? s_len s then (8, "..."%string) else (s_len s, ""%string))) = Some f /\
    slice_bytes r f = firstn (Z.to_nat (Z.min 8 (s_len s))) (slice_bytes r s).
Proof.
  intros r s H1 H2.
  assert (Hk : 0 <= fst (if 8 <? s_len s then (8, "..."%string) else (s_len s, ""%string)) <= s_cap s /\
               fst (if 8 <? s_len s then (8, "..."%string) else (s_len s, ""%string)) = Z.min 8 (s_len s)).
  { destruct (8 <? s_len s) eqn:E; simpl; [apply Z.ltb_lt in E | apply Z.ltb_ge in E]; lia. }
  destruct Hk as [Hk Hm].
  unfold slice_to, reslice at 1.
  replace ((0 <=? 0) && (0 <=? fst _) && (fst _ <=? s_cap s)) with true
    by (symmetry; rewrite !andb_true_iff, !Z.leb_le; lia).
  eexists; split; [reflexivity|].
  rewrite Hm. apply slice_bytes_to; [|lia].
  unfold slice_to, reslice.
  replace ((0 <=? 0) && (0 <=? Z.min 8 (s_len s)) && (Z.min 8 (s_len s) <=? s_cap s)) with true
    by (symmetry; rewrite !andb_true_iff, !Z.leb_le; lia).
  reflexivity.
Qed.

Section DebugProps.

Variable getHandler : Z -> option operationHandler.
Variables hasInType hasOutType : operationHandler -> bool.
Variables PrintIn PrintOut : operationHandler -> list Z -> String.string.
Variable quote : list Z -> String.string.
Variable quoteList : list (list Z) -> String.string.
Variable operationName : Z -> String.string.
Variable statusString : Z -> String.string.

(** [OutputDebug] panics exactly when the request has no input: it
    reads the reply record only when [outputBuf] is longer than the
    out-header, and slices the flat data within its bounds. *)
Theorem OutputDebug_panics_iff_no_input : forall r,
  s_len (flatData r) <= s_cap (flatData r) ->
  (OutputDebug getHandler hasOutType PrintOut quote statusString r = None <-> s_len (inputBuf r) <= 0).
Proof.
  intros r Hf. unfold OutputDebug. split.
  - intros Hn. apply (in_field_none r 4 4). unfold in_opcode in Hn.
    destruct (in_field r 4 4) as [op|] eqn:Hop; [exfalso|reflexivity].
    destruct (in_field_exists r r 4 8 4 8 op Hop eq_refl) as [uq Huq].
    unfold in_unique in Hn. rewrite Huq in Hn.
    destruct (getHandler op) as [h|];
      [destruct (hasOutType h && (sizeOfOutHeader <? s_len (outputBuf r))) eqn:Eh;
       [rewrite andb_true_iff in Eh; destruct Eh as [_ Eh]; rewrite Eh in Hn|]|];
      cbv zeta in Hn;
      (destruct (0 <? flatDataSize r) eqn:Ef; [|discriminate]);
      (destruct (file_name_out getHandler op); [discriminate|]);
      (destruct (fdData r) eqn:Ed; [discriminate|]);
      unfold flatDataSize in Ef; rewrite Ed in Ef; apply Z.ltb_lt in Ef;
      destruct (debug_prefix r (flatData r) Ef Hf) as (f & Ef' & _);
      rewrite Ef' in Hn; discriminate.
  - intros Hle. apply (in_field_none r 4 4) in Hle. unfold in_opcode. rewrite Hle. reflexivity.
Qed.

(** [InputDebug] panics exactly when the request has no input. *)
Theorem InputDebug_panics_iff_no_input : forall r,
  s_len (arg r) <= s_cap (arg r) ->
  (InputDebug getHandler hasInType PrintIn quote quoteList operationName r = None <-> s_len (inputBuf r) <= 0).
Proof.
  intros r Ha. unfold InputDebug. split.
  - intros Hn. apply (in_field_none r 4 4). unfold in_opcode in Hn.
    destruct (in_field r 4 4) as [op|] eqn:Hop; [exfalso|reflexivity].
    assert (Hpos : 0 < s_len (inputBuf r)).
    { destruct (Z.lt_ge_cases 0 (s_len (inputBuf r))) as [H|H]; [exact H|].
      apply (in_field_none r 4 4) in H. congruence. }
    destruct (in_field_exists r r 4 8 4 8 op Hop eq_refl) as [uq Huq].
    destruct (in_field_exists r r 4 16 4 8 op Hop eq_refl) as [nid Hnid].
    destruct (in_field_exists r r 4 32 4 4 op Hop eq_refl) as [pid Hpid].
    unfold in_unique, in_nodeId, in_pid in Hn. rewrite Huq, Hnid, Hpid in Hn.
    replace (0 <? s_len (inputBuf r)) with true in Hn by (symmetry; now apply Z.ltb_lt).
    destruct (getHandler op) as [h|]; [destruct (hasInType h)|]; cbv zeta in Hn;
      (destruct (0 <? s_len (arg r)) eqn:Ea; [|discriminate]);
      (destruct (Nat.eqb (names_len (filenames r)) 0); [|discriminate]);
      apply Z.ltb_lt in Ea;
      destruct (debug_prefix r (arg r) Ea Ha) as (f & Ef & _);
      rewrite Ef in Hn; discriminate.
  - intros Hle. apply (in_field_none r 4 4) in Hle. unfold in_opcode. rewrite Hle. reflexivity.
Qed.

(** [OutputDebug] shows at most the first 8 bytes of the flat data: for an
    opcode whose flat data is not a file name and a reply without fd data,
    replacing the flat data with bytes of the same length and the same
    first 8 bytes gives the same text. *)
Theorem OutputDebug_flat_prefix_only : forall r op fd,
  in_opcode r = Some op -> file_name_out getHandler op = false -> fdData r = None ->
  s_len fd = s_len (flatData r) -> s_len fd <= s_cap fd ->
  s_len (flatData r) <= s_cap (flatData r) ->
  firstn 8 (slice_bytes r fd) = firstn 8 (slice_bytes r (flatData r)) ->
  OutputDebug getHandler hasOutType PrintOut quote statusString (set_flatData r fd) = OutputDebug getHandler hasOutType PrintOut quote statusString r.
Proof.
  intros r op fd Hop Hfn Hd Hl Hc Hc' H8. unfold OutputDebug.
  unfold in_opcode, in_unique. rewrite !in_field_set_flatData.
  unfold in_opcode in Hop. rewrite Hop.
  rewrite array_bytes_set_flatData. cbn [set_flatData outputBuf status fdData flatData].
  unfold flatDataSize. cbn [set_flatData fdData flatData]. rewrite Hd, Hl, Hfn.
  destruct (0 <? s_len (flatData r)) eqn:Ep; [|reflexivity].
  apply Z.ltb_lt in Ep.
  destruct (debug_prefix r fd ltac:(lia) Hc) as (f1 & E1 & B1).
  destruct (debug_prefix r (flatData r) Ep Hc') as (f2 & E2 & B2).
  rewrite Hl in E1, B1. rewrite E1, E2, slice_bytes_set_flatData, B1, B2.
  replace (Z.to_nat (Z.min 8 (s_len (flatData r)))) with (Nat.min (Z.to_nat (Z.min 8 (s_len (flatData r)))) 8)
    by lia.
  rewrite <- !firstn_firstn, H8. reflexivity.
Qed.

(** [InputDebug] shows at most the first 8 bytes of [arg], and none when
    the request has file names: replacing [arg] with a slice of the same
    length (and, without file names, the same first 8 bytes) gives the
    same text. *)
Theorem InputDebug_arg_prefix_only : forall r a,
  s_len a = s_len (arg r) -> s_len a <= s_cap a -> s_len (arg r) <= s_cap (arg r) ->
  (names_len (filenames r) <> O \/ firstn 8 (slice_bytes r a) = firstn 8 (slice_bytes r (arg r))) ->
  InputDebug getHandler hasInType PrintIn quote quoteList operationName (set_arg r a) = InputDebug getHandler hasInType PrintIn quote quoteList operationName r.
Proof.
  intros r a Hl Hc Hc' H8. unfold InputDebug.
  unfold in_opcode, in_unique, in_nodeId, in_pid. rewrite !in_field_set_arg.
  rewrite array_bytes_set_arg. cbn [set_arg inputBuf arg filenames]. rewrite Hl.
  destruct (0 <? s_len (arg r)) eqn:Ep; [|reflexivity].
  apply Z.ltb_lt in Ep.
  destruct (Nat.eqb (names_len (filenames r)) 0) eqn:En; [|reflexivity].
  apply Nat.eqb_eq in En. destruct H8 as [H8|H8]; [contradiction|].
  destruct (debug_prefix r a ltac:(lia) Hc) as (f1 & E1 & B1).
  destruct (debug_prefix r (arg r) Ep Hc') as (f2 & E2 & B2).
  rewrite Hl in E1, B1. rewrite E1, E2, slice_bytes_set_arg, B1, B2.
  replace (Z.to_nat (Z.min 8 (s_len (arg r)))) with (Nat.min (Z.to_nat (Z.min 8 (s_len (arg r)))) 8)
    by lia.
  rewrite <- !firstn_firstn, H8. reflexivity.
Qed.

End DebugProps.

Lemma OutputDebug_panics_iff_no_input_witness :
  OutputDebug opcodeTable (fun _ => true) fmt_handler fmt_bytes fmt_code req_getattr = None <->
  s_len (inputBuf req_getattr) <= 0.
Proof.
  exact (OutputDebug_panics_iff_no_input opcodeTable (fun _ => true) fmt_handler fmt_bytes fmt_code
           req_getattr ltac:(discharge)).
Defined.

Lemma InputDebug_panics_iff_no_input_witness :
  InputDebug opcodeTable (fun _ => true) fmt_handler fmt_bytes fmt_names fmt_code req_getattr = None <->
  s_len (inputBuf req_getattr) <= 0.
Proof.
  exact (InputDebug_panics_iff_no_input opcodeTable (fun _ => true) fmt_handler fmt_bytes fmt_names
           fmt_code req_getattr ltac:(discharge)).
Defined.

Lemma OutputDebug_flat_prefix_only_witness :
  OutputDebug opcodeTable (fun _ => true) fmt_handler fmt_bytes fmt_code
    (set_flatData req_flat10 flat10_other) =
  OutputDebug opcodeTable (fun _ => true) fmt_handler fmt_bytes fmt_code req_flat10.
Proof.
  exact (OutputDebug_flat_prefix_only opcodeTable (fun _ => true) fmt_handler fmt_bytes fmt_code
           req_flat10 _OP_GETATTR flat10_other ltac:(discharge) ltac:(discharge) ltac:(discharge)
           ltac:(discharge) ltac:(discharge) ltac:(discharge) ltac:(discharge)).
Defined.

Lemma InputDebug_arg_prefix_only_witness :
  InputDebug opcodeTable (fun _ => true) fmt_handler fmt_bytes fmt_names fmt_code
    (set_arg req_arg10 flat10_other) =
  InputDebug opcodeTable (fun _ => true) fmt_handler fmt_bytes fmt_names fmt_code req_arg10.
Proof.
  exact (InputDebug_arg_prefix_only opcodeTable (fun _ => true) fmt_handler fmt_bytes fmt_names fmt_code
           req_arg10 flat10_other ltac:(discharge) ltac:(discharge) ltac:(discharge)
           ltac:(right; vm_compute; reflexivity)).
Defined.
